(** * GeoMind geometry canvas: projection, hit-testing and selection state

    A shallow embedding of [src/components/GeometryCanvas.tsx] (the variant
    with point selection and the measurement tool) and of the data model of
    [src/types.ts].

    Numbers.  The inputs of the component are finite: scene coordinates come
    from JSON, the camera state is accumulated from finite pointer and wheel
    deltas, and viewport sizes are pixel counts.  They are modelled as exact
    reals.  The one operation of the source that leaves the finite range on
    finite operands of moderate size is the perspective division
    [scale / (d - z * 0.1)]; whatever is computed from its result therefore
    lives in [number], the reals extended with the IEEE special values
    [Infinity], [-Infinity] and [NaN].

    The program itself computes in doubles.  Properties that compare
    computed numbers are stated with margins wide enough to hold after
    rounding as well, and the module [Binary64] repeats the projection on
    binary64 floats to exhibit the inputs at which rounding decides the
    outcome. *)

From Stdlib Require Import Reals Lra Lia ZArith List Ascii String.
From Stdlib Require Floats QArith.
From stdpp Require Import base strings gmap pretty.

Local Open Scope R_scope.

(** ** JavaScript numbers that may be non-finite *)

Module JS.

Inductive number : Type :=
  | Fin (r : R)
  | PInf
  | NInf
  | NaN.

Definition isFinite (a : number) : Prop :=
  match a with Fin _ => True | _ => False end.

(** [a + b] *)
Definition add (a b : number) : number :=
  match a, b with
  | NaN, _ | _, NaN => NaN
  | Fin x, Fin y => Fin (x + y)
  | PInf, NInf | NInf, PInf => NaN
  | PInf, _ | _, PInf => PInf
  | NInf, _ | _, NInf => NInf
  end.

(** [-a] *)
Definition neg (a : number) : number :=
  match a with
  | Fin x => Fin (- x)
  | PInf => NInf
  | NInf => PInf
  | NaN => NaN
  end.

(** [a - b] *)
Definition sub (a b : number) : number := add a (neg b).

(** The product of the infinity of sign [pos] with the finite [x]. *)
Definition scaleInf (pos : bool) (x : R) : number :=
  if Req_dec_T x 0 then NaN
  else if Rlt_dec 0 x then (if pos then PInf else NInf)
  else (if pos then NInf else PInf).

(** [a * b] *)
Definition mul (a b : number) : number :=
  match a, b with
  | NaN, _ | _, NaN => NaN
  | Fin x, Fin y => Fin (x * y)
  | Fin x, PInf | PInf, Fin x => scaleInf true x
  | Fin x, NInf | NInf, Fin x => scaleInf false x
  | PInf, PInf | NInf, NInf => PInf
  | PInf, NInf | NInf, PInf => NInf
  end.

(** [a / b].  A zero divisor in the source is always the [+0] produced by a
    subtraction (or a positive literal), so a quotient by zero takes the sign
    of the dividend. *)
Definition div (a b : number) : number :=
  match a, b with
  | NaN, _ | _, NaN => NaN
  | Fin x, Fin y =>
      if Req_dec_T y 0 then
        (if Req_dec_T x 0 then NaN
         else if Rlt_dec 0 x then PInf else NInf)
      else Fin (x / y)
  | Fin _, (PInf | NInf) => Fin 0
  | (PInf | NInf), (PInf | NInf) => NaN
  | PInf, Fin y => if Rlt_dec y 0 then NInf else PInf
  | NInf, Fin y => if Rlt_dec y 0 then PInf else NInf
  end.

(** [Math.sqrt(a)] *)
Definition sqrt (a : number) : number :=
  match a with
  | Fin x => if Rlt_dec x 0 then NaN else Fin (R_sqrt.sqrt x)
  | PInf => PInf
  | NInf => NaN
  | NaN => NaN
  end.

(** [a < b]: false as soon as one side is [NaN]. *)
Definition lt (a b : number) : Prop :=
  match a, b with
  | NaN, _ | _, NaN => False
  | Fin x, Fin y => x < y
  | NInf, NInf | PInf, _ => False
  | NInf, _ | Fin _, PInf => True
  | Fin _, NInf => False
  end.

Definition ltb (a b : number) : bool :=
  match a, b with
  | NaN, _ | _, NaN => false
  | Fin x, Fin y => if Rlt_dec x y then true else false
  | NInf, NInf | PInf, _ => false
  | NInf, _ | Fin _, PInf => true
  | Fin _, NInf => false
  end.

(** JavaScript truthiness of a [string | null] value: [null] and the empty
    string are falsy. *)
Definition truthy (s : option string) : bool :=
  match s with
  | None => false
  | Some s => negb (String.eqb s EmptyString)
  end.

End JS.

Abbreviation number := JS.number.
Abbreviation Fin := JS.Fin.

(** ** Data model ([src/types.ts]) *)

Record Point3D : Type := {
  id : string;
  x : R;
  y : R;
  z : R;
  label : option string
}.

Inductive LineStyle : Type := solid | dashed.

Record LineSegment : Type := {
  sourceId : string;
  targetId : string;
  style : LineStyle;
  color : option string
}.

Record GeometryScene : Type := {
  points : list Point3D;
  segments : list LineSegment
}.

(** ** Camera state and projection *)

Record Rotation : Type := { rx : R; ry : R }.

Record Projected : Type := {
  px : number;
  py : number;
  pscale : number;
  zIndex : R
}.

(** Camera distance constant [d] of [project]. *)
Definition d : R := 4.

Definition project (rotation : Rotation) (scale : R)
    (point : Point3D) (width height : R) : Projected :=
  (* 1. Rotate around Y axis *)
  let x1 := point.(x) * cos rotation.(ry) - point.(z) * sin rotation.(ry) in
  let z1 := point.(x) * sin rotation.(ry) + point.(z) * cos rotation.(ry) in
  let y1 := point.(y) in
  (* 2. Rotate around X axis *)
  let yNew := y1 * cos rotation.(rx) - z1 * sin rotation.(rx) in
  let zNew := y1 * sin rotation.(rx) + z1 * cos rotation.(rx) in
  (* 3. Perspective projection *)
  let factor := JS.div (Fin scale) (Fin (d - zNew * 0.1)) in
  {| px := JS.add (JS.mul (Fin x1) factor) (Fin (width / 2));
     py := JS.add (JS.mul (Fin (- yNew)) factor) (Fin (height / 2));
     pscale := factor;
     zIndex := zNew |}.

Definition getDistance (p1 p2 : Point3D) : R :=
  sqrt ((p2.(x) - p1.(x)) ^ 2 + (p2.(y) - p1.(y)) ^ 2 + (p2.(z) - p1.(z)) ^ 2).

(** ** Component state

    The [useState] cells of the component and the [mouseDownPos] ref. *)

Record Pos : Type := { posX : R; posY : R }.

Record State : Type := {
  rotation : Rotation;
  scale : R;
  isDragging : bool;
  lastMouse : Pos;
  selectedPointId : option string;
  isMeasurementMode : bool;
  measurePoints : list string;
  mouseDownPos : Pos
}.

Definition initialState : State :=
  {| rotation := {| rx := -0.5; ry := 0.5 |};
     scale := 100;
     isDragging := false;
     lastMouse := {| posX := 0; posY := 0 |};
     selectedPointId := None;
     isMeasurementMode := false;
     measurePoints := [];
     mouseDownPos := {| posX := 0; posY := 0 |} |}.

(** ** The page around the component

    What the handlers read from the DOM: the canvas element (absent before
    mounting) with its pixel size, its bounding rectangle and whether a 2D
    context can be obtained, and the container's client size.  [Platform]
    collects the host functions the draw pass calls. *)

Record Canvas : Type := {
  width : Z;
  height : Z;
  rectLeft : R;
  rectTop : R;
  hasContext : bool
}.

Record Dom : Type := {
  canvas : option Canvas;
  container : option (Z * Z)
}.

Record Platform : Type := {
  (** [ctx.measureText(text).width] under the font given first *)
  measureText : string -> string -> R;
  (** [Number::toString] on values of at least [10^21] *)
  numberToString : R -> string;
  (** [typeof ctx.roundRect === 'function'] *)
  hasRoundRect : bool
}.

(** ** [Number.prototype.toFixed(2)] on a finite number *)

(** [count] occurrences of the code unit ["0"]. *)
Fixpoint zeros (count : nat) : string :=
  match count with
  | O => EmptyString
  | S count => String "0"%char (zeros count)
  end.

(** Steps 11.b and 11.c of the algorithm for [f = 2]: the decimal digits of
    the integer [n], padded on the left to [f + 1] digits, with the point
    before the last [f]. *)
Definition fixedDigits (n : Z) : string :=
  let f := 2%nat in
  let m := if Z.eqb n 0 then "0"%string else pretty (Z.to_N n) in
  let k := String.length m in
  let m := if Nat.leb k f then (zeros (f + 1 - k) +:+ m)%string else m in
  let k := if Nat.leb k f then (f + 1)%nat else k in
  let a := substring 0 (k - f) m in
  let b := substring (k - f) f m in
  (a +:+ "." +:+ b)%string.

Definition toFixed (P : Platform) (v : R) : string :=
  let s := if Rlt_dec v 0 then "-"%string else EmptyString in
  let v := if Rlt_dec v 0 then - v else v in
  let m :=
    if Rle_dec (10 ^ 21) v then P.(numberToString) v
    else
      (* the integer nearest to [v * 10^2], the larger one on a tie *)
      fixedDigits (Zfloor (v * 100 + / 2)) in
  (s +:+ m)%string.

(** ** The drawing surface

    The draw pass only talks to the 2D context; its effect is the sequence
    of context calls and property assignments it issues, in order. *)

Inductive Paint : Type :=
  | Color (css : string)
  | RadialGradient (x0 y0 : number) (r0 : R) (x1 y1 : number) (r1 : R)
      (stops : list (R * string)).

Inductive Cmd : Type :=
  | ClearRect (x y w h : R)
  | SetLineWidth (w : R)
  | SetStrokeStyle (css : string)
  | SetFillStyle (paint : Paint)
  | SetFont (font : string)
  | SetTextAlign (align : string)
  | SetTextBaseline (baseline : string)
  | SetLineDash (pattern : list R)
  | SetShadowColor (css : string)
  | SetShadowBlur (v : R)
  | SetShadowOffsetX (v : R)
  | SetShadowOffsetY (v : R)
  | BeginPath
  | MoveTo (x y : number)
  | LineTo (x y : number)
  | Arc (x y : number) (radius startAngle endAngle : R)
  | Rect (x y : number) (w h : R)
  | RoundRect (x y : number) (w h radii : R)
  | Stroke
  | Fill
  | FillRect (x y : number) (w h : R)
  | StrokeRect (x y : number) (w h : R)
  | FillText (text : string) (x y : number)
  | Save
  | Restore.


Definition finiteb (a : number) : bool :=
  match a with
  | JS.Fin _ => true
  | _ => false
  end.

Definition createRadialGradient (x0 y0 : number) (r0 : R)
    (x1 y1 : number) (r1 : R) : option (list (R * string) -> Paint) :=
  if finiteb x0 && finiteb y0 && finiteb x1 && finiteb y1
  then Some (RadialGradient x0 y0 r0 x1 y1 r1)
  else None.

(** ** The draw pass

    Every layer below is a block of [draw], in source order.  The camera
    ([rotation], [scale]) and the selection state are read from the state
    of the render the pass belongs to. *)

Section Draw.

Variable P : Platform.
Variable st : State.
Variable scene : GeometryScene.
Variables w h : R.

Definition proj (p : Point3D) : Projected :=
  project st.(rotation) st.(scale) p w h.

Definition gridSize : Z := 10.
Definition gridStep : Z := 1.

(** One iteration of the grid loop, for the loop counter [i]. *)
Definition drawGridLines (i : Z) : list Cmd :=
  let p1 := proj {| id := "g1"; x := IZR i; y := 0; z := IZR (- gridSize); label := None |} in
  let p2 := proj {| id := "g2"; x := IZR i; y := 0; z := IZR gridSize; label := None |} in
  let p3 := proj {| id := "g3"; x := IZR (- gridSize); y := 0; z := IZR i; label := None |} in
  let p4 := proj {| id := "g4"; x := IZR gridSize; y := 0; z := IZR i; label := None |} in
  [ MoveTo p1.(px) p1.(py); LineTo p2.(px) p2.(py);
    MoveTo p3.(px) p3.(py); LineTo p4.(px) p4.(py) ].

(** [for (let i = -gridSize; i <= gridSize; i += gridStep)]: the counter
    takes the values [-gridSize + k * gridStep] up to [gridSize]. *)
Definition drawGrid : list Cmd :=
  [ SetLineWidth 1; SetStrokeStyle "rgba(148, 163, 184, 0.1)"; BeginPath ]
  ++ concat (map (fun k => drawGridLines (- gridSize + k * gridStep)%Z)
               (seqZ 0 (2 * gridSize / gridStep + 1)))
  ++ [ Stroke ].

Definition axisLength : R := 3.

Definition drawAxis (pOrigin pEnd : Projected) (stroke fill text : string)
    (textX textY : number) : list Cmd :=
  [ BeginPath;
    MoveTo pOrigin.(px) pOrigin.(py);
    LineTo pEnd.(px) pEnd.(py);
    SetStrokeStyle stroke;
    Stroke;
    SetFillStyle (Color fill);
    FillText text textX textY ].

Definition drawAxes : list Cmd :=
  let origin := {| id := "origin"; x := 0; y := 0; z := 0; label := None |} in
  let xAxis := {| id := "axis-x"; x := axisLength; y := 0; z := 0; label := None |} in
  let yAxis := {| id := "axis-y"; x := 0; y := axisLength; z := 0; label := None |} in
  let zAxis := {| id := "axis-z"; x := 0; y := 0; z := axisLength; label := None |} in
  let pOrigin := proj origin in
  let pX := proj xAxis in
  let pY := proj yAxis in
  let pZ := proj zAxis in
  [ SetLineWidth 2; SetFont "bold 12px Inter";
    SetTextAlign "center"; SetTextBaseline "middle" ]
  ++ drawAxis pOrigin pX "rgba(239, 68, 68, 0.6)" "#ef4444" "X"
       (JS.add pX.(px) (Fin 10)) pX.(py)
  ++ drawAxis pOrigin pY "rgba(34, 197, 94, 0.6)" "#22c55e" "Y"
       pY.(px) (JS.sub pY.(py) (Fin 12))
  ++ drawAxis pOrigin pZ "rgba(59, 130, 246, 0.6)" "#3b82f6" "Z"
       (JS.add pZ.(px) (Fin 10)) pZ.(py)
  ++ [ SetTextAlign "left"; SetTextBaseline "alphabetic" ].

(** [projectedPoints]: the [Map] filled by [scene.points.forEach]; a later
    point with the same id replaces the earlier entry. *)
Definition projectedPoints : gmap string Projected :=
  foldl (fun m p => <[ p.(id) := proj p ]> m) ∅ scene.(points).

(** The line stroked for a segment whose two ends [p1], [p2] were found. *)
Definition strokeSegment (p1 p2 : Projected) (seg : LineSegment) : list Cmd :=
  [ BeginPath;
    MoveTo p1.(px) p1.(py);
    LineTo p2.(px) p2.(py);
    SetStrokeStyle "#94a3b8";
    SetLineWidth 1.5 ]
  ++ match seg.(style) with
     | dashed => [ SetLineDash [5; 5]; SetStrokeStyle "#475569" ]
     | solid => [ SetLineDash []; SetStrokeStyle "#e2e8f0" ]
     end
  ++ [ Stroke ].

(** Body of [scene.segments.forEach]: [if (p1 && p2)] passes exactly when
    both lookups found an entry. *)
Definition drawSegment (seg : LineSegment) : list Cmd :=
  match projectedPoints !! seg.(sourceId), projectedPoints !! seg.(targetId) with
  | Some p1, Some p2 => strokeSegment p1 p2 seg
  | _, _ => []
  end.

Definition drawSegments : list Cmd :=
  concat (map drawSegment scene.(segments)).

(** [scene.points.find(p => p.id === key)] *)
Definition findPoint (key : string) : option Point3D :=
  List.find (fun p => String.eqb p.(id) key) scene.(points).

(** The cyan ring of the closure passed to [[proj1, proj2].forEach]. *)
Definition drawRing (proj : option Projected) : list Cmd :=
  match proj with
  | Some proj =>
      [ BeginPath;
        Arc proj.(px) proj.(py) 10 0 (PI * 2);
        SetStrokeStyle "#22d3ee";
        SetLineWidth 2;
        Stroke ]
  | None => []
  end.

(** The connector line and the distance badge between two measured
    points. *)
Definition drawBadge (proj1 proj2 : Projected) (p1Data p2Data : Point3D)
    : list Cmd :=
  let midX := JS.div (JS.add proj1.(px) proj2.(px)) (Fin 2) in
  let midY := JS.div (JS.add proj1.(py) proj2.(py)) (Fin 2) in
  let dist := toFixed P (getDistance p1Data p2Data) in
  let textWidth := P.(measureText) "bold 12px Inter" dist in
  let padding := 6 in
  let boxX := JS.sub (JS.sub midX (Fin (textWidth / 2))) (Fin padding) in
  let boxY := JS.sub midY (Fin 10) in
  [ BeginPath;
    MoveTo proj1.(px) proj1.(py);
    LineTo proj2.(px) proj2.(py);
    SetStrokeStyle "#06b6d4";
    SetLineDash [4; 4];
    SetLineWidth 2;
    Stroke;
    SetLineDash [];
    SetFont "bold 12px Inter";
    SetFillStyle (Color "#083344");
    FillRect boxX boxY (textWidth + padding * 2) 20;
    SetStrokeStyle "#06b6d4";
    SetLineWidth 1;
    StrokeRect boxX boxY (textWidth + padding * 2) 20;
    SetFillStyle (Color "#22d3ee");
    SetTextAlign "center";
    SetTextBaseline "middle";
    FillText dist midX midY;
    SetTextAlign "left";
    SetTextBaseline "alphabetic" ].

(** The measurement tool drawing layer. *)
Definition drawMeasurement : list Cmd :=
  if Nat.ltb 0 (length st.(measurePoints)) then
    let p1Data := mbind findPoint (st.(measurePoints) !! 0%nat) in
    let p2Data :=
      if Nat.ltb 1 (length st.(measurePoints))
      then mbind findPoint (st.(measurePoints) !! 1%nat)
      else None in
    let proj1 := mbind (fun p => projectedPoints !! p.(id)) p1Data in
    let proj2 := mbind (fun p => projectedPoints !! p.(id)) p2Data in
    match proj1, proj2, p1Data, p2Data with
    | Some proj1, Some proj2, Some p1Data, Some p2Data =>
        drawBadge proj1 proj2 p1Data p2Data
    | _, _, _, _ => []
    end
    ++ drawRing proj1 ++ drawRing proj2
  else [].

(** [p.id === selectedPointId && !isMeasurementMode] *)
Definition isSelected (p : Point3D) : bool :=
  match st.(selectedPointId) with
  | Some sel => String.eqb p.(id) sel && negb st.(isMeasurementMode)
  | None => false
  end.

(** What the closure of the points loop draws for [p] when it is not set
    aside as the selected point. *)
Definition drawStandardPoint (p : Point3D) (proj : Projected) : list Cmd :=
  [ BeginPath;
    Arc proj.(px) proj.(py) 4 0 (PI * 2);
    SetFillStyle
      (Color (if bool_decide (p.(id) ∈ st.(measurePoints))
              then "#22d3ee" else "#facc15"));
    Fill ]
  ++ match p.(label) with
     | Some text =>
         if JS.truthy p.(label) then
           [ SetFillStyle (Color "#fff");
             SetFont "12px Inter";
             FillText text (JS.add proj.(px) (Fin 8)) (JS.sub proj.(py) (Fin 8)) ]
         else []
     | None => []
     end.

(** The points loop: the commands issued so far and the values of
    [selectedProj] and [selectedPointData]. *)
Definition drawPointsStep (acc : list Cmd * option (Projected * Point3D))
    (p : Point3D) : list Cmd * option (Projected * Point3D) :=
  match projectedPoints !! p.(id) with
  | Some proj =>
      if isSelected p then (acc.1, Some (proj, p))
      else (acc.1 ++ drawStandardPoint p proj, acc.2)
  | None => acc
  end.

Definition drawPoints : list Cmd * option (Projected * Point3D) :=
  foldl drawPointsStep ([], None) scene.(points).

(** [p.label || p.id] *)
Definition labelOrId (p : Point3D) : string :=
  match p.(label) with
  | Some text => if JS.truthy p.(label) then text else p.(id)
  | None => p.(id)
  end.

(** Highlight and tooltip of the selected point, drawn last.  The block
    opens with [createRadialGradient]: when that call raises, the block
    issues no command at all ([None]). *)
Definition drawSelected (proj : Projected) (p : Point3D)
    : option (list Cmd) :=
  let glowRadius := 14 in
  gradient ← createRadialGradient proj.(px) proj.(py) 4
               proj.(px) proj.(py) glowRadius;
  let labelText :=
    (labelOrId p +:+ ": (" +:+ toFixed P p.(x) +:+ ", " +:+ toFixed P p.(y)
       +:+ ", " +:+ toFixed P p.(z) +:+ ")")%string in
  let textWidth := P.(measureText) "600 13px Inter" labelText in
  let paddingX := 10 in
  let boxHeight := 32 in
  let offsetDist := 20 in
  let boxX := JS.add proj.(px) (Fin offsetDist) in
  let boxY := JS.sub (JS.sub proj.(py) (Fin offsetDist)) (Fin (boxHeight / 2)) in
  Some
  [ BeginPath;
    Arc proj.(px) proj.(py) glowRadius 0 (PI * 2);
    SetFillStyle
      (gradient
         [ (0, "rgba(236, 72, 153, 0.6)"%string);
           (1, "rgba(236, 72, 153, 0)"%string) ]);
    Fill;
    BeginPath;
    Arc proj.(px) proj.(py) 8 0 (PI * 2);
    SetStrokeStyle "#f472b6";
    SetLineWidth 2;
    Stroke;
    BeginPath;
    Arc proj.(px) proj.(py) 5 0 (PI * 2);
    SetFillStyle (Color "#db2777");
    Fill;
    SetStrokeStyle "#fff";
    SetLineWidth 1.5;
    Stroke;
    SetFont "600 13px Inter";
    BeginPath;
    MoveTo (JS.add proj.(px) (Fin 6)) (JS.sub proj.(py) (Fin 6));
    LineTo boxX (JS.add boxY (Fin (boxHeight / 2)));
    SetStrokeStyle "#f472b6";
    SetLineWidth 1;
    Stroke;
    Save;
    SetShadowColor "rgba(0, 0, 0, 0.6)";
    SetShadowBlur 8;
    SetShadowOffsetX 4;
    SetShadowOffsetY 4;
    SetFillStyle (Color "rgba(30, 41, 59, 0.95)");
    BeginPath;
    (if P.(hasRoundRect)
     then RoundRect boxX boxY (textWidth + paddingX * 2) boxHeight 6
     else Rect boxX boxY (textWidth + paddingX * 2) boxHeight);
    Fill;
    Restore;
    SetStrokeStyle "#f472b6";
    SetLineWidth 1;
    Stroke;
    SetFillStyle (Color "#fff");
    SetTextBaseline "middle";
    SetTextAlign "left";
    FillText labelText (JS.add boxX (Fin paddingX))
      (JS.add boxY (Fin (boxHeight / 2)));
    SetTextBaseline "alphabetic" ].

(** The top layer: the highlight of the point the points loop set aside,
    if there is one. *)
Definition drawHighlight : option (list Cmd) :=
  match drawPoints.2 with
  | Some (proj, p) => drawSelected proj p
  | None => Some []
  end.

(** Everything [draw] issues once the surface has its size [w] x [h]:
    the layers in order, up to the point where the pass returns or
    raises. *)
Definition drawFrame : list Cmd :=
  [ ClearRect 0 0 w h ]
  ++ drawGrid
  ++ drawAxes
  ++ drawSegments
  ++ drawMeasurement
  ++ drawPoints.1
  ++ match drawHighlight with
     | Some cmds => cmds
     | None => []
     end.


End Draw.



(** ** Event handlers

    Each handler maps the state of the current render to the state of the
    next one.  A pointer event carries [clientX] and [clientY]. *)

Definition handleMouseDown (e : Pos) (st : State) : State :=
  {| rotation := st.(rotation);
     scale := st.(scale);
     isDragging := true;
     lastMouse := {| posX := e.(posX); posY := e.(posY) |};
     selectedPointId := st.(selectedPointId);
     isMeasurementMode := st.(isMeasurementMode);
     measurePoints := st.(measurePoints);
     mouseDownPos := {| posX := e.(posX); posY := e.(posY) |} |}.

Definition handleMouseMove (e : Pos) (st : State) : State :=
  if negb st.(isDragging) then st
  else
    let deltaX := e.(posX) - st.(lastMouse).(posX) in
    let deltaY := e.(posY) - st.(lastMouse).(posY) in
    {| rotation := {| rx := st.(rotation).(rx) + deltaY * 0.01;
                      ry := st.(rotation).(ry) + deltaX * 0.01 |};
       scale := st.(scale);
       isDragging := st.(isDragging);
       lastMouse := {| posX := e.(posX); posY := e.(posY) |};
       selectedPointId := st.(selectedPointId);
       isMeasurementMode := st.(isMeasurementMode);
       measurePoints := st.(measurePoints);
       mouseDownPos := st.(mouseDownPos) |}.

(** Pixel distance from the click position ([cx], [cy]) on the canvas to
    the projection of [p]: the [dist] of the hit-test loop. *)
Definition clickDist (st : State) (w h cx cy : R) (p : Point3D) : number :=
  let proj := project st.(rotation) st.(scale) p w h in
  let dx := JS.sub (Fin cx) proj.(px) in
  let dy := JS.sub (Fin cy) proj.(py) in
  JS.sqrt (JS.add (JS.mul dx dx) (JS.mul dy dy)).

(** One turn of the hit-test loop of [handleCanvasClick] on the pair
    ([closestId], [minDist]). *)
Definition hitStep (st : State) (w h cx cy : R)
    (acc : option string * number) (p : Point3D) : option string * number :=
  let dist := clickDist st w h cx cy p in
  if JS.ltb dist acc.2 then (Some p.(id), dist) else acc.

(** The loop from [closestId = null], [minDist = 20]. *)
Definition hitTest (st : State) (scene : GeometryScene) (w h cx cy : R)
    : option string * number :=
  foldl (hitStep st w h cx cy) (None, Fin 20) scene.(points).

(** The updater passed to [setMeasurePoints]. *)
Definition addMeasurePoint (closestId : string) (prev : list string)
    : list string :=
  if Nat.eqb (length prev) 2 then [closestId]
  else if bool_decide (closestId ∈ prev) then prev
  else prev ++ [closestId].

Definition setSelectedPointId (v : option string) (st : State) : State :=
  {| rotation := st.(rotation);
     scale := st.(scale);
     isDragging := st.(isDragging);
     lastMouse := st.(lastMouse);
     selectedPointId := v;
     isMeasurementMode := st.(isMeasurementMode);
     measurePoints := st.(measurePoints);
     mouseDownPos := st.(mouseDownPos) |}.

Definition setMeasurePoints (f : list string -> list string) (st : State)
    : State :=
  {| rotation := st.(rotation);
     scale := st.(scale);
     isDragging := st.(isDragging);
     lastMouse := st.(lastMouse);
     selectedPointId := st.(selectedPointId);
     isMeasurementMode := st.(isMeasurementMode);
     measurePoints := f st.(measurePoints);
     mouseDownPos := st.(mouseDownPos) |}.

Definition setIsMeasurementMode (v : bool) (st : State) : State :=
  {| rotation := st.(rotation);
     scale := st.(scale);
     isDragging := st.(isDragging);
     lastMouse := st.(lastMouse);
     selectedPointId := st.(selectedPointId);
     isMeasurementMode := v;
     measurePoints := st.(measurePoints);
     mouseDownPos := st.(mouseDownPos) |}.

Definition setIsDragging (v : bool) (st : State) : State :=
  {| rotation := st.(rotation);
     scale := st.(scale);
     isDragging := v;
     lastMouse := st.(lastMouse);
     selectedPointId := st.(selectedPointId);
     isMeasurementMode := st.(isMeasurementMode);
     measurePoints := st.(measurePoints);
     mouseDownPos := st.(mouseDownPos) |}.

Definition setScale (f : R -> R) (st : State) : State :=
  {| rotation := st.(rotation);
     scale := f st.(scale);
     isDragging := st.(isDragging);
     lastMouse := st.(lastMouse);
     selectedPointId := st.(selectedPointId);
     isMeasurementMode := st.(isMeasurementMode);
     measurePoints := st.(measurePoints);
     mouseDownPos := st.(mouseDownPos) |}.

(** [handleCanvasClick].  [if (closestId)] fails for [null] and for the
    empty string alike. *)
Definition handleCanvasClick (scene : GeometryScene) (dom : Dom) (e : Pos)
    (st : State) : State :=
  match dom.(canvas) with
  | None => st
  | Some cv =>
      let cx := e.(posX) - cv.(rectLeft) in
      let cy := e.(posY) - cv.(rectTop) in
      let closestId :=
        (hitTest st scene (IZR cv.(width)) (IZR cv.(height)) cx cy).1 in
      let clickedEmptySpace :=
        if negb st.(isMeasurementMode)
        then setSelectedPointId None st
        else st in
      match closestId with
      | Some cid =>
          if JS.truthy closestId then
            if st.(isMeasurementMode)
            then setMeasurePoints (addMeasurePoint cid) st
            else setSelectedPointId (Some cid) st
          else clickedEmptySpace
      | None => clickedEmptySpace
      end
  end.

(** [handleMouseUp]; the click handler runs on the state with the dragging
    flag already lowered, which it neither reads nor writes. *)
Definition handleMouseUp (scene : GeometryScene) (dom : Dom) (e : Pos)
    (st : State) : State :=
  let st' := setIsDragging false st in
  let moveDist :=
    sqrt ((e.(posX) - st.(mouseDownPos).(posX)) ^ 2
          + (e.(posY) - st.(mouseDownPos).(posY)) ^ 2) in
  if Rlt_dec moveDist 5 then handleCanvasClick scene dom e st' else st'.

Definition handleWheel (deltaY : R) (st : State) : State :=
  setScale (fun prev => Rmax 20 (Rmin 500 (prev - deltaY * 0.1))) st.

Definition toggleMeasurementMode (st : State) : State :=
  let newMode := negb st.(isMeasurementMode) in
  let st1 := setIsMeasurementMode newMode st in
  let st2 := setMeasurePoints (fun _ => []) st1 in
  if newMode then setSelectedPointId None st2 else st2.

(** [onClick] of the Select Mode button. *)
Definition selectModeClick (st : State) : State :=
  setSelectedPointId None
    (setMeasurePoints (fun _ => []) (setIsMeasurementMode false st)).

(** ** The component as a transition system

    The events the component's container and buttons are wired to.  The
    scene prop and the DOM may differ from one event to the next. *)

Inductive Event : Type :=
  | MouseDown (e : Pos)
  | MouseMove (e : Pos)
  | MouseUp (e : Pos)
  | MouseLeave (e : Pos)
  | Wheel (deltaY : R)
  | MeasureButtonClick
  | SelectButtonClick.

Definition step (scene : GeometryScene) (dom : Dom) (ev : Event) (st : State)
    : State :=
  match ev with
  | MouseDown e => handleMouseDown e st
  | MouseMove e => handleMouseMove e st
  | MouseUp e => handleMouseUp scene dom e st
  | MouseLeave e => handleMouseUp scene dom e st
  | Wheel deltaY => handleWheel deltaY st
  | MeasureButtonClick => toggleMeasurementMode st
  | SelectButtonClick => selectModeClick st
  end.

Inductive reachable : State -> Prop :=
  | reachable_init : reachable initialState
  | reachable_step scene dom ev st :
      reachable st -> reachable (step scene dom ev st).

(** A run of the component: the events in order, each with the scene and
    the DOM it meets. *)
Definition run (trace : list (GeometryScene * Dom * Event)) (st : State)
    : State :=
  foldl (fun st '(scene, dom, ev) => step scene dom ev st) st trace.

(** ** The projection as the specification words it

    A plane rotation by [angle], and the four steps of the pipeline spelt
    out on top of it. *)

Definition rotate2D (angle a b : R) : R * R :=
  (a * cos angle - b * sin angle, a * sin angle + b * cos angle).

Definition projectSpec (rotationX rotationY scale : R) (point : Point3D)
    (viewportWidth viewportHeight : R) : number * number * R :=
  (* rotate around Y: a rotation in the X-Z plane *)
  let '(x1, z1) := rotate2D rotationY point.(x) point.(z) in
  (* rotate around X: a rotation in the Y-Z plane, on the rotated z *)
  let '(y2, z2) := rotate2D rotationX point.(y) z1 in
  let factor := JS.div (Fin scale) (Fin (4 - z2 * 0.1)) in
  let screenX := JS.add (JS.mul (Fin x1) factor) (Fin (viewportWidth / 2)) in
  let screenY := JS.add (JS.mul (Fin (- y2)) factor) (Fin (viewportHeight / 2)) in
  (screenX, screenY, z2).

(** Pixel distance between two projected positions. *)
Definition screenDistance (a b : Projected) : number :=
  let dx := JS.sub a.(px) b.(px) in
  let dy := JS.sub a.(py) b.(py) in
  JS.sqrt (JS.add (JS.mul dx dx) (JS.mul dy dy)).

(** Euclidean norm of a point's world coordinates. *)
Definition norm (p : Point3D) : R :=
  sqrt (p.(x) ^ 2 + p.(y) ^ 2 + p.(z) ^ 2).

(** The two points have the same world coordinates. *)
Definition sameCoordinates (p q : Point3D) : Prop :=
  p.(x) = q.(x) /\ p.(y) = q.(y) /\ p.(z) = q.(z).

(** The click [e] lands on a hit-testable point: the hit-test resolves it
    to the id [cid], and [cid] passes the test [if (closestId)]. *)
Definition clickHits (scene : GeometryScene) (dom : Dom) (e : Pos)
    (st : State) (cid : string) : Prop :=
  exists cv, canvas dom = Some cv
    /\ (hitTest st scene (IZR (width cv)) (IZR (height cv))
          (posX e - rectLeft cv) (posY e - rectTop cv)).1 = Some cid
    /\ cid <> EmptyString.

(** The segment refers to an id that no point of the scene carries. *)
Definition dangling (scene : GeometryScene) (seg : LineSegment) : Prop :=
  seg.(sourceId) ∉ map id scene.(points)
  \/ seg.(targetId) ∉ map id scene.(points).

#[global] Instance dangling_dec scene seg : Decision (dangling scene seg).
Proof. unfold dangling. apply _. Defined.

(** The texts a command sequence writes with [fillText], in order. *)
Definition fillTexts (cmds : list Cmd) : list string :=
  omap (fun c => match c with FillText text _ _ => Some text | _ => None end)
    cmds.

(** The two rotations of [project] on the coordinates of [p]. *)
Definition rotated (rot : Rotation) (p : Point3D) : R * R * R :=
  let x1 := p.(x) * cos rot.(ry) - p.(z) * sin rot.(ry) in
  let z1 := p.(x) * sin rot.(ry) + p.(z) * cos rot.(ry) in
  let yNew := p.(y) * cos rot.(rx) - z1 * sin rot.(rx) in
  let zNew := p.(y) * sin rot.(rx) + z1 * cos rot.(rx) in
  (x1, yNew, zNew).

(** The pixel distance between the projections of [p] and [q] grows
    strictly with the zoom scale over the clamp range. *)
Definition zoomMonotone (rot : Rotation) (p q : Point3D) (w h : R) : Prop :=
  forall s1 s2 : R, 20 <= s1 -> s1 < s2 -> s2 <= 500 ->
    JS.lt (screenDistance (project rot s1 p w h) (project rot s1 q w h))
          (screenDistance (project rot s2 p w h) (project rot s2 q w h)).

(** What the state machine keeps true of the selection: the pair holds at
    most two ids, measurement mode has no detail selection, and select
    mode has no measurement pair. *)
Definition selectionInv (st : State) : Prop :=
  (length (measurePoints st) <= 2)%nat
  /\ (isMeasurementMode st = true -> selectedPointId st = None)
  /\ (isMeasurementMode st = false -> measurePoints st = []).

(** State of the hit-test loop after the points of [seen]: either nothing
    came within the radius, or the loop holds the id and the distance of a
    point within the radius that no point seen is strictly nearer than. *)
Definition hitInv (dist : Point3D -> number) (seen : list Point3D)
    (acc : option string * number) : Prop :=
  match acc.1 with
  | None =>
      acc.2 = Fin 20 /\ forall q, q ∈ seen -> ~ JS.lt (dist q) (Fin 20)
  | Some i =>
      exists p, p ∈ seen /\ id p = i /\ acc.2 = dist p
                /\ JS.lt (dist p) (Fin 20)
                /\ forall q, q ∈ seen -> ~ JS.lt (dist q) (dist p)
  end.


(** ** A concrete page

    Three points on the x axis seen by a camera without rotation at the
    initial zoom, on an 800 x 600 canvas: they project to (400, 300),
    (425, 300) and (450, 300). *)

Definition pointAt (name : string) (a b c : R) : Point3D :=
  {| id := name; x := a; y := b; z := c; label := None |}.

Definition lineScene : GeometryScene :=
  {| points := [ pointAt "A" 0 0 0; pointAt "B" 1 0 0; pointAt "C" 2 0 0 ];
     segments := [] |}.

Definition page : Dom :=
  {| canvas := Some {| width := 800; height := 600; rectLeft := 0;
                       rectTop := 0; hasContext := true |};
     container := Some (800%Z, 600%Z) |}.

Definition flatState (measuring : bool) (pair : list string) : State :=
  {| rotation := {| rx := 0; ry := 0 |};
     scale := 100;
     isDragging := false;
     lastMouse := {| posX := 0; posY := 0 |};
     selectedPointId := None;
     isMeasurementMode := measuring;
     measurePoints := pair;
     mouseDownPos := {| posX := 0; posY := 0 |} |}.

(** Two points, the segment between them and a segment to a missing
    point. *)
Definition brokenScene : GeometryScene :=
  {| points := [ pointAt "A" 0 0 0; pointAt "B" 3 4 0 ];
     segments :=
       [ {| sourceId := "A"; targetId := "B"; style := solid; color := None |};
         {| sourceId := "A"; targetId := "Z"; style := dashed; color := None |} ] |}.

Definition plainPlatform : Platform :=
  {| measureText := fun _ text => 7 * INR (String.length text);
     numberToString := fun _ => "1e+21"%string;
     hasRoundRect := true |}.

(** State of the hit-test loop after the points of [seen], with the place
    of the retained point: the points before it that lie within the radius
    are strictly farther, the points after it are not strictly nearer. *)
Definition hitInvFirst (dist : Point3D -> number) (seen : list Point3D)
    (acc : option string * number) : Prop :=
  match acc.1 with
  | None =>
      acc.2 = Fin 20 /\ forall q, q ∈ seen -> ~ JS.lt (dist q) (Fin 20)
  | Some i =>
      exists l1 p l2,
        seen = l1 ++ p :: l2 /\ id p = i /\ acc.2 = dist p
        /\ JS.lt (dist p) (Fin 20)
        /\ (forall q, q ∈ l1 -> JS.lt (dist q) (Fin 20) ->
             JS.lt (dist p) (dist q))
        /\ (forall q, q ∈ l2 -> ~ JS.lt (dist q) (dist p))
  end.

(** State of the points loop after the points of [seen] as to the point
    set aside: none while no point seen is the selected one; otherwise the
    last such point seen, with the projection stored under its id. *)
Definition selectedInv (st : State) (M : gmap string Projected)
    (seen : list Point3D) (acc : list Cmd * option (Projected * Point3D))
    : Prop :=
  match acc.2 with
  | None => forall q, q ∈ seen -> isSelected st q = false
  | Some (pr, p) =>
      p ∈ seen /\ isSelected st p = true /\ M !! id p = Some pr
  end.

(** Every coordinate the command passes to the context is finite. *)
Definition cmdFinite (c : Cmd) : Prop :=
  match c with
  | MoveTo a b | LineTo a b | Arc a b _ _ _ | Rect a b _ _
  | RoundRect a b _ _ _ | FillRect a b _ _ | StrokeRect a b _ _
  | FillText _ a b =>
      JS.isFinite a /\ JS.isFinite b
  | SetFillStyle (RadialGradient x0 y0 _ x1 y1 _ _) =>
      JS.isFinite x0 /\ JS.isFinite y0 /\ JS.isFinite x1 /\ JS.isFinite y1
  | _ => True
  end.

(** The projected position is finite. *)
Definition finitePos (pr : Projected) : Prop :=
  JS.isFinite (px pr) /\ JS.isFinite (py pr).



(** The text of the active-tool instruction of the overlay; nothing is
    rendered outside measurement mode, and the counter only once a point
    is picked. *)
Definition toolInstruction (st : State) : option string :=
  if isMeasurementMode st then
    Some ("Select 2 points to measure distance"
          +:+ (if Nat.ltb 0 (length (measurePoints st))
               then " (" +:+ pretty (length (measurePoints st))
                    +:+ "/2 selected)"
               else EmptyString))%string
  else None.

(** ** The projection in binary64

    The program computes in IEEE 754 doubles.  This module repeats
    [project] and the pixel distance operation by operation on the
    kernel's binary64 floats, to replay the code at inputs where rounding
    decides the outcome.  The language leaves the accuracy of [Math.cos]
    and [Math.sin] to the engine, so they are a parameter. *)

Module Binary64.

Import PrimFloat FloatOps SpecFloat.
Local Open Scope float_scope.

Record Libm : Type := {
  cos : float -> float;
  sin : float -> float
}.

Record Point3D : Type := {
  id : string;
  x : float;
  y : float;
  z : float;
  label : option string
}.

Record Rotation : Type := { rx : float; ry : float }.

Record Projected : Type := {
  px : float;
  py : float;
  pscale : float;
  zIndex : float
}.

Definition project (M : Libm) (rotation : Rotation) (scale : float)
    (point : Point3D) (width height : float) : Projected :=
  (* 1. Rotate around Y axis *)
  let x1 := point.(x) * M.(cos) rotation.(ry) - point.(z) * M.(sin) rotation.(ry) in
  let z1 := point.(x) * M.(sin) rotation.(ry) + point.(z) * M.(cos) rotation.(ry) in
  let y1 := point.(y) in
  (* 2. Rotate around X axis *)
  let yNew := y1 * M.(cos) rotation.(rx) - z1 * M.(sin) rotation.(rx) in
  let zNew := y1 * M.(sin) rotation.(rx) + z1 * M.(cos) rotation.(rx) in
  (* 3. Perspective projection; the literal is the double nearest to 0.1 *)
  let d := 4 in
  let factor := scale / (d - zNew * 0x1.999999999999ap-4) in
  {| px := x1 * factor + width / 2;
     py := - yNew * factor + height / 2;
     pscale := factor;
     zIndex := zNew |}.

(** Pixel distance between two projected positions. *)
Definition screenDistance (a b : Projected) : float :=
  let dx := a.(px) - b.(px) in
  let dy := a.(py) - b.(py) in
  sqrt (dx * dx + dy * dy).

(** The rational number a finite double stands for. *)
Definition exact (v : float) : QArith_base.Q :=
  match Prim2SF v with
  | S754_finite s m e =>
      QArith_base.Qmult
        (QArith_base.inject_Z (if s then Z.neg m else Z.pos m))
        (QArith_base.Qpower (QArith_base.inject_Z 2) e)
  | _ => QArith_base.inject_Z 0
  end.


(** The replays below use two angles, 0 and the double nearest to 8e-9.
    At 0 the cosine is 1 and the sine 0.  At 8e-9 the cosine differs from
    1 by 3.2e-17 and the sine from the angle by 8.6e-26, so the nearest
    doubles are 1 and the angle itself.  No other argument is needed. *)
Definition smallAngle : float := 0x1.12e0be826d695p-27.

Definition libm : Libm :=
  {| cos := fun a =>
       if a =? 0 then 1 else if a =? smallAngle then 1 else nan;
     sin := fun a =>
       if a =? 0 then 0 else if a =? smallAngle then smallAngle else nan |}.




(** Pixel distance between the projections of two distinct points of
    depth 0 under the unrotated camera, 1e-15 apart, at the scale [s]. *)
Definition closePairDistance (s : float) : float :=
  let rot := {| rx := 0; ry := 0 |} in
  screenDistance
    (project libm rot s
       {| id := "P"; x := 0; y := 0; z := 0; label := None |} 800 600)
    (project libm rot s
       {| id := "Q"; x := 0x1.203af9ee75616p-50; y := 0; z := 0;
          label := None |} 800 600).

Definition closePairDistances : float * float :=
  (closePairDistance 20, closePairDistance 100).

End Binary64.

(** * Properties *)

(** ** Arithmetic of [number] *)

Lemma ltb_lt a b : JS.ltb a b = true <-> JS.lt a b.
Proof.
  destruct a, b; simpl; try (split; [discriminate | tauto]); try tauto.
  destruct (Rlt_dec r r0); split; auto; discriminate.
Qed.

Lemma ltb_nlt a b : JS.ltb a b = false <-> ~ JS.lt a b.
Proof.
  rewrite <- ltb_lt. destruct (JS.ltb a b); split; auto; try discriminate.
  intros H; exfalso; apply H; reflexivity.
Qed.

Lemma div_fin (a b : R) : b <> 0 -> JS.div (Fin a) (Fin b) = Fin (a / b).
Proof. intros Hb. simpl. destruct (Req_dec_T b 0); [contradiction | reflexivity]. Qed.

Lemma sqrt_fin (a : R) : 0 <= a -> JS.sqrt (Fin a) = Fin (sqrt a).
Proof. intros Ha. simpl. destruct (Rlt_dec a 0); [lra | reflexivity]. Qed.

Example fixedDigits_500 : fixedDigits 500 = "5.00"%string.
Proof. vm_compute. reflexivity. Qed.

Example fixedDigits_7 : fixedDigits 7 = "0.07"%string.
Proof. vm_compute. reflexivity. Qed.

Example fixedDigits_0 : fixedDigits 0 = "0.00"%string.
Proof. vm_compute. reflexivity. Qed.

Example fixedDigits_12345 : fixedDigits 12345 = "123.45"%string.
Proof. vm_compute. reflexivity. Qed.

(** ** Projection *)

Lemma zIndex_rotated rot s p w h :
  zIndex (project rot s p w h) = (rotated rot p).2.
Proof. reflexivity. Qed.

Lemma cos2_sin2 (a : R) : cos a * cos a + sin a * sin a = 1.
Proof. generalize (sin2_cos2 a). unfold Rsqr. lra. Qed.

(** Rotations preserve the squared length. *)
Lemma rotation_isometry (c s c' s' a b e : R) :
  c * c + s * s = 1 -> c' * c' + s' * s' = 1 ->
  let x1 := a * c - e * s in
  let z1 := a * s + e * c in
  let yNew := b * c' - z1 * s' in
  let zNew := b * s' + z1 * c' in
  x1 * x1 + yNew * yNew + zNew * zNew = a * a + b * b + e * e.
Proof.
  intros Hc Hc' x1 z1 yNew zNew.
  assert (H1 : x1 * x1 + z1 * z1 = (a * a + e * e) * (c * c + s * s))
    by (unfold x1, z1; ring).
  assert (H2 : yNew * yNew + zNew * zNew
               = (b * b + z1 * z1) * (c' * c' + s' * s'))
    by (unfold yNew, zNew; ring).
  rewrite Hc in H1. rewrite Hc' in H2. lra.
Qed.

Lemma rotated_norm rot p :
  let '(x1, yNew, zNew) := rotated rot p in
  x1 * x1 + yNew * yNew + zNew * zNew
  = p.(x) * p.(x) + p.(y) * p.(y) + p.(z) * p.(z).
Proof.
  unfold rotated.
  apply (rotation_isometry (cos rot.(ry)) (sin rot.(ry))
           (cos rot.(rx)) (sin rot.(rx))); apply cos2_sin2.
Qed.

(** When the perspective denominator is not zero the projection is the
    finite one of real arithmetic. *)
Lemma project_finite rot s p w h :
  d - (rotated rot p).2 * 0.1 <> 0 ->
  let '(x1, yNew, zNew) := rotated rot p in
  let factor := s / (d - zNew * 0.1) in
  px (project rot s p w h) = Fin (x1 * factor + w / 2)
  /\ py (project rot s p w h) = Fin (- yNew * factor + h / 2)
  /\ pscale (project rot s p w h) = Fin factor.
Proof.
  unfold rotated, project. cbn [fst snd px py pscale]. intros Hd.
  rewrite (div_fin _ _ Hd). cbn [JS.mul JS.add]. auto.
Qed.

(** C1: for every point, rotation pair, zoom scale and viewport size,
    [project] rotates around the Y axis by [rotationY] in the X-Z plane,
    then around the X axis by [rotationX] in the Y-Z plane on the already
    rotated z, takes [factor = scale / (4 - z * 0.1)] and returns
    [x * factor + width / 2], [- y * factor + height / 2] and the rotated
    z; being a function of these inputs alone, equal inputs give equal
    outputs. *)
Theorem project_follows_pipeline (rotationX rotationY scale : R)
    (point : Point3D) (width height : R) :
  let r := project {| rx := rotationX; ry := rotationY |} scale point width height in
  (px r, py r, zIndex r)
  = projectSpec rotationX rotationY scale point width height
  /\ pscale r
     = JS.div (Fin scale) (Fin (4 - zIndex r * 0.1)).
Proof. split; reflexivity. Qed.

Lemma project_origin rot s w h p :
  x p = 0 -> y p = 0 -> z p = 0 ->
  px (project rot s p w h) = Fin (w / 2)
  /\ py (project rot s p w h) = Fin (h / 2).
Proof.
  intros Hx0 Hy0 Hz0.
  pose proof (project_finite rot s p w h) as H.
  unfold rotated in H. cbn [fst snd] in H. rewrite Hx0, Hy0, Hz0 in H.
  destruct H as (Hx & Hy & _).
  - unfold d. lra.
  - rewrite Hx, Hy. split; f_equal; lra.
Qed.

(** C4: the origin projects onto the centre of the viewport, whatever the
    rotation, the zoom scale and the viewport size. *)
Theorem project_origin_is_center (rot : Rotation) (scale width height : R)
    (ident : string) (text : option string) :
  let origin := {| id := ident; x := 0; y := 0; z := 0; label := text |} in
  px (project rot scale origin width height) = Fin (width / 2)
  /\ py (project rot scale origin width height) = Fin (height / 2).
Proof. intros origin. apply project_origin; reflexivity. Qed.

(** The rotated depth of a point is bounded by its norm. *)
Lemma depth_below_norm rot p bound :
  norm p < bound -> Rabs (rotated rot p).2 < bound.
Proof.
  intros Hn. pose proof (rotated_norm rot p) as Hiso.
  destruct (rotated rot p) as [[x1 yNew] zNew]. cbn [snd].
  unfold norm in Hn.
  set (n2 := p.(x) ^ 2 + p.(y) ^ 2 + p.(z) ^ 2) in Hn.
  assert (Hn2 : 0 <= n2) by (unfold n2; nra).
  assert (Hz : zNew * zNew <= n2) by (unfold n2; nra).
  rewrite <- sqrt_Rsqr_abs.
  eapply Rle_lt_trans; [| exact Hn].
  apply sqrt_le_1_alt. exact Hz.
Qed.

Lemma norm_at_most p bound :
  0 <= bound -> x p ^ 2 + y p ^ 2 + z p ^ 2 <= bound * bound ->
  norm p <= bound.
Proof.
  intros Hb Hn. unfold norm. rewrite <- (sqrt_square bound) by assumption.
  apply sqrt_le_1_alt. exact Hn.
Qed.




(** ** Zoom monotonicity *)

Lemma screenDistance_finite rot s p q w h :
  (rotated rot p).2 = (rotated rot q).2 ->
  d - (rotated rot p).2 * 0.1 <> 0 ->
  let '(xp, yp, zp) := rotated rot p in
  let '(xq, yq, _) := rotated rot q in
  screenDistance (project rot s p w h) (project rot s q w h)
  = Fin (sqrt ((s / (d - zp * 0.1)) ^ 2
               * ((xp - xq) ^ 2 + (yp - yq) ^ 2))).
Proof.
  intros Hz Hd.
  pose proof (project_finite rot s p w h Hd) as Hp.
  assert (Hd' : d - (rotated rot q).2 * 0.1 <> 0) by (rewrite <- Hz; exact Hd).
  pose proof (project_finite rot s q w h Hd') as Hq.
  destruct (rotated rot p) as [[xp yp] zp].
  destruct (rotated rot q) as [[xq yq] zq].
  cbn [snd] in *. subst zq.
  destruct Hp as (Hpx & Hpy & _). destruct Hq as (Hqx & Hqy & _).
  unfold screenDistance. rewrite Hpx, Hpy, Hqx, Hqy.
  cbn [JS.sub JS.neg JS.add JS.mul].
  rewrite sqrt_fin by (apply Rplus_le_le_0_compat; apply Rle_0_sqr).
  do 2 f_equal. unfold Rdiv. ring.
Qed.

(** Two points with different coordinates and the same rotated depth
    differ in their rotated x or y. *)
Lemma rotated_apart rot p q :
  ~ sameCoordinates p q ->
  (rotated rot p).2 = (rotated rot q).2 ->
  let '(xp, yp, _) := rotated rot p in
  let '(xq, yq, _) := rotated rot q in
  0 < (xp - xq) ^ 2 + (yp - yq) ^ 2.
Proof.
  intros Hne Hz.
  pose (dp := {| id := EmptyString; x := p.(x) - q.(x); y := p.(y) - q.(y);
                 z := p.(z) - q.(z); label := None |}).
  pose proof (rotated_norm rot dp) as Hiso.
  unfold rotated in *. cbn [snd x y z dp] in *.
  set (c := cos rot.(ry)) in *. set (s := sin rot.(ry)) in *.
  set (c' := cos rot.(rx)) in *. set (s' := sin rot.(rx)) in *.
  assert (Hz0 : (y p - y q) * s' + ((x p - x q) * s + (z p - z q) * c) * c' = 0)
    by lra.
  rewrite Hz0 in Hiso.
  assert (Hpos : 0 < (x p - x q) * (x p - x q) + (y p - y q) * (y p - y q)
                     + (z p - z q) * (z p - z q)).
  { destruct (Req_dec (x p) (x q)) as [Hx | Hx];
      [destruct (Req_dec (y p) (y q)) as [Hy | Hy];
        [destruct (Req_dec (z p) (z q)) as [Hz' | Hz'] |] |].
    - exfalso. apply Hne. repeat split; assumption.
    - pose proof (Rsqr_pos_lt (z p - z q)) as Hs. unfold Rsqr in Hs.
      rewrite Hx, Hy. lra.
    - pose proof (Rsqr_pos_lt (y p - y q)) as Hs. unfold Rsqr in Hs.
      pose proof (Rle_0_sqr (z p - z q)) as Hs'. unfold Rsqr in Hs'.
      rewrite Hx. lra.
    - pose proof (Rsqr_pos_lt (x p - x q)) as Hs. unfold Rsqr in Hs.
      pose proof (Rle_0_sqr (y p - y q)) as Hs1. unfold Rsqr in Hs1.
      pose proof (Rle_0_sqr (z p - z q)) as Hs2. unfold Rsqr in Hs2.
      lra. }
  rewrite <- Hiso in Hpos.
  match goal with |- 0 < ?a ^ 2 + ?b ^ 2 =>
    replace (a ^ 2 + b ^ 2) with
      (((x p - x q) * c - (z p - z q) * s) * ((x p - x q) * c - (z p - z q) * s)
       + ((y p - y q) * c' - ((x p - x q) * s + (z p - z q) * c) * s')
         * ((y p - y q) * c' - ((x p - x q) * s + (z p - z q) * c) * s'))
      by ring
  end.
  lra.
Qed.

(** C8, as stated, fails where the common depth is 40: the denominator
    [4 - 40 * 0.1] is zero, the projections are not finite and neither is
    their distance, at any scale. *)
Lemma zoom_monotone_counterexample :
  let rot := {| rx := 0; ry := 0 |} in
  let p := {| id := "P"; x := 0; y := 0; z := 40; label := None |} in
  let q := {| id := "Q"; x := 1; y := 0; z := 40; label := None |} in
  ~ sameCoordinates p q
  /\ zIndex (project rot 20 p 800 600) = zIndex (project rot 20 q 800 600)
  /\ ~ zoomMonotone rot p q 800 600.
Proof.
  intros rot p q. split; [| split].
  - unfold sameCoordinates. cbn. lra.
  - unfold project. cbn [zIndex x y z rx ry p q rot].
    rewrite cos_0, sin_0. lra.
  - intros Hmono. specialize (Hmono 20 500).
    assert (Hnan : screenDistance (project rot 20 p 800 600)
                     (project rot 20 q 800 600)
                   = JS.NaN).
    { unfold screenDistance, project. cbn [px py x y z rx ry p q rot].
      rewrite cos_0, sin_0.
      replace (d - (0 * 0 + (0 * 0 + 40 * 1) * 1) * 0.1) with 0
        by (unfold d; lra).
      replace (d - (0 * 0 + (1 * 0 + 40 * 1) * 1) * 0.1) with 0
        by (unfold d; lra).
      replace (0 * 1 - 40 * 0) with 0 by lra.
      cbn [JS.div].
      destruct (Req_dec_T 0 0) as [_ | Hc]; [| contradiction].
      destruct (Req_dec_T 20 0) as [Hc | _]; [lra |].
      destruct (Rlt_dec 0 20) as [_ | Hc]; [| lra].
      cbn [JS.mul]. unfold JS.scaleInf.
      destruct (Req_dec_T 0 0) as [_ | Hc]; [| contradiction].
      reflexivity. }
    rewrite Hnan in Hmono. apply Hmono; lra.
Qed.

(** Over exact reals: for two points with different coordinates, the same
    rotated depth [z] and [4 - z * 0.1] not zero, the pixel distance
    between their projections is strictly increasing in the zoom scale
    over [20, 500]. *)
Lemma zoom_monotone_exact (rot : Rotation) (p q : Point3D) (w h : R) :
  ~ sameCoordinates p q ->
  zIndex (project rot 20 p w h) = zIndex (project rot 20 q w h) ->
  d - zIndex (project rot 20 p w h) * 0.1 <> 0 ->
  zoomMonotone rot p q w h.
Proof.
  rewrite !zIndex_rotated. intros Hne Hz Hd s1 s2 H1 H12 H2.
  pose proof (screenDistance_finite rot s1 p q w h Hz Hd) as E1.
  pose proof (screenDistance_finite rot s2 p q w h Hz Hd) as E2.
  pose proof (rotated_apart rot p q Hne Hz) as Hpos.
  destruct (rotated rot p) as [[xp yp] zp].
  destruct (rotated rot q) as [[xq yq] zq].
  cbn [snd] in *. rewrite E1, E2. cbn [JS.lt].
  set (g := (xp - xq) ^ 2 + (yp - yq) ^ 2) in *.
  set (D := d - zp * 0.1) in *.
  assert (HD2 : 0 < / D * / D).
  { assert (/ D <> 0) by (apply Rinv_neq_0_compat; exact Hd). nra. }
  assert (Hk : 0 < / D * / D * g) by (apply Rmult_lt_0_compat; assumption).
  unfold Rdiv.
  replace ((s1 * / D) ^ 2 * g) with (s1 * s1 * (/ D * / D * g)) by ring.
  replace ((s2 * / D) ^ 2 * g) with (s2 * s2 * (/ D * / D * g)) by ring.
  assert (Hs : s1 * s1 < s2 * s2) by nra.
  apply sqrt_lt_1_alt. split.
  - apply Rmult_le_pos; [apply Rle_0_sqr | lra].
  - apply Rmult_lt_compat_r; assumption.
Qed.

(** In doubles the increase is lost below the resolution of the screen
    coordinates: two points 1e-15 apart project to the same pixel at the
    scales 20 and 100 alike. *)
Lemma zoom_close_pair_ties :
  Binary64.closePairDistances = (PrimFloat.zero, PrimFloat.zero).
Proof. vm_compute. reflexivity. Qed.

(** C8, amended: take two points of norm at most 39.999 with the same
    rotated depth, at least 0.01 apart, on a viewport of at most 100000
    pixels a side.  Then the pixel distance between their projections at
    a scale [s2] is strictly larger than at a scale [s1] whenever both lie
    in [20, 500] and [s2] exceeds [s1] by at least 0.01.  The margins keep
    the depth away from 40, where the projection is not finite, and the
    increase above what rounding can absorb. *)
Theorem zoom_monotone (rot : Rotation) (p q : Point3D) (w h : R) :
  norm p <= 39.999 -> norm q <= 39.999 ->
  0.01 <= getDistance p q ->
  0 <= w <= 100000 -> 0 <= h <= 100000 ->
  zIndex (project rot 20 p w h) = zIndex (project rot 20 q w h) ->
  forall s1 s2 : R, 20 <= s1 -> s1 + 0.01 <= s2 -> s2 <= 500 ->
    JS.lt (screenDistance (project rot s1 p w h) (project rot s1 q w h))
          (screenDistance (project rot s2 p w h) (project rot s2 q w h)).
Proof.
  intros Hp _ Hdist _ _ Hz s1 s2 H1 H12 H2.
  apply (zoom_monotone_exact rot p q w h); [| exact Hz | | exact H1 | lra | exact H2].
  - intros (Hx & Hy & Hzz). revert Hdist. unfold getDistance.
    rewrite Hx, Hy, Hzz.
    replace ((x q - x q) ^ 2 + (y q - y q) ^ 2 + (z q - z q) ^ 2) with 0
      by ring.
    rewrite sqrt_0. lra.
  - assert (Hn : norm p < 39.9995) by lra.
    pose proof (depth_below_norm rot p 39.9995 Hn) as Hd.
    rewrite zIndex_rotated. apply Rabs_def2 in Hd. unfold d. lra.
Qed.

Lemma zoom_monotone_witness :
  let rot := {| rx := 0; ry := 0 |} in
  let p := {| id := "A"; x := 0; y := 0; z := 0; label := None |} in
  let q := {| id := "B"; x := 3; y := 4; z := 0; label := None |} in
  JS.lt (screenDistance (project rot 100 p 800 600) (project rot 100 q 800 600))
        (screenDistance (project rot 200 p 800 600) (project rot 200 q 800 600)).
Proof.
  intros rot p q.
  apply (zoom_monotone rot p q 800 600); try lra.
  - apply norm_at_most; cbn [x y z p]; lra.
  - apply norm_at_most; cbn [x y z q]; lra.
  - unfold getDistance. cbn [x y z p q].
    replace ((3 - 0) ^ 2 + (4 - 0) ^ 2 + (0 - 0) ^ 2) with (5 * 5) by lra.
    rewrite sqrt_square; lra.
  - unfold project. cbn [zIndex x y z rx ry p q rot].
    rewrite cos_0, sin_0. lra.
Defined.

(** ** Zoom clamp *)

Lemma handleWheel_scale deltaY st :
  20 <= scale (handleWheel deltaY st) <= 500.
Proof.
  unfold handleWheel, setScale. cbn [scale].
  unfold Rmax, Rmin.
  destruct (Rle_dec 500 (scale st - deltaY * 0.1));
    destruct (Rle_dec 20 _); lra.
Qed.

(** The handlers other than [handleWheel] leave the scale alone. *)
Lemma handleCanvasClick_scale scene dom e st :
  scale (handleCanvasClick scene dom e st) = scale st.
Proof.
  unfold handleCanvasClick.
  destruct (canvas dom) as [cv |]; [| reflexivity].
  cbv zeta.
  destruct (hitTest _ _ _ _ _ _).1 as [cid |];
    repeat (match goal with |- context [if ?b then _ else _] => destruct b end);
    reflexivity.
Qed.

Lemma step_scale scene dom ev st :
  20 <= scale st <= 500 -> 20 <= scale (step scene dom ev st) <= 500.
Proof.
  intros Hs. destruct ev; cbn [step].
  - exact Hs.
  - unfold handleMouseMove. destruct (negb (isDragging st)); exact Hs.
  - unfold handleMouseUp. cbv zeta.
    destruct (Rlt_dec _ 5); [rewrite handleCanvasClick_scale |]; exact Hs.
  - unfold handleMouseUp. cbv zeta.
    destruct (Rlt_dec _ 5); [rewrite handleCanvasClick_scale |]; exact Hs.
  - apply handleWheel_scale.
  - unfold toggleMeasurementMode. cbv zeta.
    destruct (negb (isMeasurementMode st)); exact Hs.
  - exact Hs.
Qed.

Lemma reachable_scale st : reachable st -> 20 <= scale st <= 500.
Proof.
  induction 1 as [| scene dom ev st _ IH].
  - cbn. lra.
  - apply step_scale, IH.
Qed.

Lemma run_snoc trace item st :
  run (trace ++ [item]) st
  = (let '(scene, dom, ev) := item in step scene dom ev (run trace st)).
Proof. unfold run. rewrite foldl_app. reflexivity. Qed.

Lemma run_reachable trace : reachable (run trace initialState).
Proof.
  induction trace as [| [[scene dom] ev] trace IH] using rev_ind.
  - apply reachable_init.
  - rewrite run_snoc. apply reachable_step, IH.
Qed.

(** C2: from the initial scale 100, after any finite sequence of wheel
    events, each with an arbitrary real [deltaY], the scale lies in
    [20, 500]; it still does when other events come in between. *)
Theorem wheel_scale_clamped :
  scale initialState = 100
  /\ (forall deltas : list R,
        20 <= scale (foldl (fun st deltaY => handleWheel deltaY st)
                       initialState deltas) <= 500)
  /\ (forall trace, 20 <= scale (run trace initialState) <= 500).
Proof.
  split; [reflexivity |]. split.
  - intros deltas. induction deltas as [| deltaY deltas IH] using rev_ind.
    + cbn. lra.
    + rewrite foldl_app. cbn [foldl]. apply handleWheel_scale.
  - intros trace. apply reachable_scale, run_reachable.
Qed.

(** ** Selection state *)

Lemma addMeasurePoint_full closestId prev :
  length prev = 2%nat -> addMeasurePoint closestId prev = [closestId].
Proof. intros H. unfold addMeasurePoint. rewrite H. reflexivity. Qed.

Lemma addMeasurePoint_present closestId prev :
  length prev <> 2%nat -> closestId ∈ prev ->
  addMeasurePoint closestId prev = prev.
Proof.
  intros Hl Hin. unfold addMeasurePoint.
  apply Nat.eqb_neq in Hl. rewrite Hl.
  rewrite bool_decide_eq_true_2 by exact Hin. reflexivity.
Qed.

Lemma addMeasurePoint_fresh closestId prev :
  length prev <> 2%nat -> closestId ∉ prev ->
  addMeasurePoint closestId prev = prev ++ [closestId].
Proof.
  intros Hl Hin. unfold addMeasurePoint.
  apply Nat.eqb_neq in Hl. rewrite Hl.
  rewrite bool_decide_eq_false_2 by exact Hin. reflexivity.
Qed.

Lemma addMeasurePoint_length closestId prev :
  (length prev <= 2)%nat -> (length (addMeasurePoint closestId prev) <= 2)%nat.
Proof.
  intros Hl. unfold addMeasurePoint.
  destruct (Nat.eqb_spec (length prev) 2) as [| Hne]; [cbn; lia |].
  case_bool_decide; [exact Hl |].
  rewrite length_app. cbn. lia.
Qed.

Lemma handleCanvasClick_inv scene dom e st :
  selectionInv st -> selectionInv (handleCanvasClick scene dom e st).
Proof.
  intros (Hl & Hm & Hs). unfold handleCanvasClick.
  destruct (canvas dom) as [cv |]; [| repeat split; assumption].
  cbv zeta.
  destruct (hitTest _ _ _ _ _ _).1 as [cid |];
    [destruct (JS.truthy (Some cid)) |];
    destruct (isMeasurementMode st) eqn:Hmode; cbn [negb];
    unfold selectionInv; cbn; rewrite ?Hmode;
    repeat split; auto using addMeasurePoint_length; try discriminate.
Qed.

Lemma setIsDragging_inv b st :
  selectionInv st -> selectionInv (setIsDragging b st).
Proof. intros H. exact H. Qed.

Lemma toggleMeasurementMode_clears st :
  measurePoints (toggleMeasurementMode st) = []
  /\ (isMeasurementMode st = false ->
      isMeasurementMode (toggleMeasurementMode st) = true
      /\ selectedPointId (toggleMeasurementMode st) = None)
  /\ (isMeasurementMode st = true ->
      isMeasurementMode (toggleMeasurementMode st) = false
      /\ selectedPointId (toggleMeasurementMode st) = selectedPointId st).
Proof.
  unfold toggleMeasurementMode. cbv zeta.
  destruct (isMeasurementMode st); cbn; repeat split; auto; discriminate.
Qed.

Lemma step_inv scene dom ev st :
  selectionInv st -> selectionInv (step scene dom ev st).
Proof.
  intros Hinv. destruct ev; cbn [step].
  - exact Hinv.
  - unfold handleMouseMove. destruct (negb (isDragging st)); exact Hinv.
  - unfold handleMouseUp. cbv zeta.
    destruct (Rlt_dec _ 5); [apply handleCanvasClick_inv |]; exact Hinv.
  - unfold handleMouseUp. cbv zeta.
    destruct (Rlt_dec _ 5); [apply handleCanvasClick_inv |]; exact Hinv.
  - exact Hinv.
  - destruct Hinv as (Hl & Hm & Hs).
    destruct (toggleMeasurementMode_clears st) as (Hc & Hon & Hoff).
    unfold selectionInv. rewrite Hc. cbn [length].
    destruct (isMeasurementMode st) eqn:Hmode.
    + destruct (Hoff eq_refl) as [Hmode' Hsel]. rewrite Hmode', Hsel.
      repeat split; auto; lia.
    + destruct (Hon eq_refl) as [Hmode' Hsel]. rewrite Hmode', Hsel.
      repeat split; auto; lia.
  - unfold selectionInv, selectModeClick. cbn. repeat split; auto.
Qed.

Lemma reachable_inv st : reachable st -> selectionInv st.
Proof.
  induction 1 as [| scene dom ev st _ IH].
  - unfold selectionInv. cbn. repeat split; auto.
  - apply step_inv, IH.
Qed.

(** ** Hit-testing *)

Lemma lt_irrefl (a : number) : ~ JS.lt a a.
Proof. destruct a; simpl; try tauto. apply Rlt_irrefl. Qed.

Lemma lt_trans (a b c : number) : JS.lt a b -> JS.lt b c -> JS.lt a c.
Proof. destruct a, b, c; simpl; try tauto. apply Rlt_trans. Qed.

Lemma hitStep_inv st w h cx cy seen acc p :
  hitInv (clickDist st w h cx cy) seen acc ->
  hitInv (clickDist st w h cx cy) (seen ++ [p]) (hitStep st w h cx cy acc p).
Proof.
  set (dist := clickDist st w h cx cy).
  destruct acc as [cid md]. unfold hitInv, hitStep. cbn [fst snd].
  fold dist. intros Hinv.
  destruct (JS.ltb (dist p) md) eqn:Hlt; cbn [fst snd].
  - apply ltb_lt in Hlt.
    assert (Hmd : JS.lt (dist p) (Fin 20)
                  /\ forall q, q ∈ seen -> ~ JS.lt (dist q) md).
    { destruct cid as [i |].
      - destruct Hinv as (p0 & _ & _ & -> & H20 & Hmin).
        split; [eapply lt_trans; eassumption | exact Hmin].
      - destruct Hinv as [-> Hnone]. split; assumption. }
    destruct Hmd as [H20 Hmin].
    exists p. repeat split; auto.
    + apply elem_of_app. right. apply list_elem_of_singleton. reflexivity.
    + intros q Hq. apply elem_of_app in Hq as [Hq | Hq].
      * intros Hqp. apply (Hmin q Hq). eapply lt_trans; eassumption.
      * apply list_elem_of_singleton in Hq as ->. apply lt_irrefl.
  - apply ltb_nlt in Hlt.
    destruct cid as [i |].
    + destruct Hinv as (p0 & Hin & Hid & -> & H20 & Hmin).
      exists p0. repeat split; auto.
      * apply elem_of_app. left. exact Hin.
      * intros q Hq. apply elem_of_app in Hq as [Hq | Hq]; [auto |].
        apply list_elem_of_singleton in Hq as ->. exact Hlt.
    + destruct Hinv as [-> Hnone]. split; [reflexivity |].
      intros q Hq. apply elem_of_app in Hq as [Hq | Hq]; [auto |].
      apply list_elem_of_singleton in Hq as ->. exact Hlt.
Qed.

Lemma hitTest_inv st scene w h cx cy :
  hitInv (clickDist st w h cx cy) (points scene) (hitTest st scene w h cx cy).
Proof.
  unfold hitTest.
  induction (points scene) as [| p seen IH] using rev_ind.
  - cbn. split; [reflexivity |]. intros q Hq. inversion Hq.
  - rewrite foldl_app. cbn [foldl]. apply hitStep_inv, IH.
Qed.

Lemma hitTest_some st scene w h cx cy i :
  (hitTest st scene w h cx cy).1 = Some i ->
  exists p, p ∈ points scene /\ id p = i
            /\ JS.lt (clickDist st w h cx cy p) (Fin 20)
            /\ forall q, q ∈ points scene ->
                 ~ JS.lt (clickDist st w h cx cy q) (clickDist st w h cx cy p).
Proof.
  intros Hi. pose proof (hitTest_inv st scene w h cx cy) as Hinv.
  unfold hitInv in Hinv. rewrite Hi in Hinv.
  destruct Hinv as (p & Hin & Hid & _ & H20 & Hmin). eauto.
Qed.

Lemma hitTest_none st scene w h cx cy :
  (hitTest st scene w h cx cy).1 = None <->
  forall q, q ∈ points scene -> ~ JS.lt (clickDist st w h cx cy q) (Fin 20).
Proof.
  pose proof (hitTest_inv st scene w h cx cy) as Hinv.
  unfold hitInv in Hinv. split.
  - intros Hn. rewrite Hn in Hinv. apply Hinv.
  - intros Hnone. destruct (hitTest st scene w h cx cy).1 as [i |]; [| reflexivity].
    destruct Hinv as (p & Hin & _ & _ & H20 & _).
    exfalso. exact (Hnone p Hin H20).
Qed.


(** A click that the hit-test resolves to the id [cid], not empty. *)
Lemma handleCanvasClick_point scene dom cv e st cid :
  canvas dom = Some cv ->
  (hitTest st scene (IZR (width cv)) (IZR (height cv))
     (posX e - rectLeft cv) (posY e - rectTop cv)).1 = Some cid ->
  cid <> EmptyString ->
  handleCanvasClick scene dom e st
  = if isMeasurementMode st
    then setMeasurePoints (addMeasurePoint cid) st
    else setSelectedPointId (Some cid) st.
Proof.
  intros Hcv Hhit Hne. unfold handleCanvasClick. rewrite Hcv. cbv zeta.
  rewrite Hhit. cbn [JS.truthy].
  destruct (String.eqb_spec cid EmptyString) as [-> | _]; [contradiction |].
  reflexivity.
Qed.

(** The id of the nearest point is falsy when it is the empty string: the
    click then counts as one on empty space. *)
Lemma handleCanvasClick_empty_id scene dom cv e st :
  canvas dom = Some cv ->
  (hitTest st scene (IZR (width cv)) (IZR (height cv))
     (posX e - rectLeft cv) (posY e - rectTop cv)).1 = Some EmptyString ->
  handleCanvasClick scene dom e st
  = if isMeasurementMode st then st else setSelectedPointId None st.
Proof.
  intros Hcv Hhit. unfold handleCanvasClick. rewrite Hcv. cbv zeta.
  rewrite Hhit. cbn. destruct (isMeasurementMode st); reflexivity.
Qed.


Ltac rabs_lra :=
  unfold Rabs in *;
  repeat match goal with
         | |- context [Rcase_abs ?e] => destruct (Rcase_abs e)
         | H : context [Rcase_abs ?e] |- _ => destruct (Rcase_abs e)
         end;
  lra.

Lemma clickDist_flat measuring pair name a cx :
  clickDist (flatState measuring pair) 800 600 cx 300 (pointAt name a 0 0)
  = Fin (Rabs (cx - (25 * a + 400))).
Proof.
  unfold clickDist, project. cbn [rotation scale flatState rx ry x y z pointAt px py].
  rewrite cos_0, sin_0.
  replace (d - (0 * 0 + (a * 0 + 0 * 1) * 1) * 0.1) with 4 by (unfold d; lra).
  rewrite div_fin by lra. cbn [JS.sub JS.neg JS.add JS.mul].
  rewrite sqrt_fin by (apply Rplus_le_le_0_compat; apply Rle_0_sqr).
  f_equal. rewrite <- sqrt_Rsqr_abs. f_equal. unfold Rsqr. lra.
Qed.

Lemma hitTest_lineScene measuring pair cx :
  (hitTest (flatState measuring pair) lineScene 800 600 cx 300).1
  = if Rlt_dec (Rabs (cx - 400)) 20 then
      if Rlt_dec (Rabs (cx - 425)) (Rabs (cx - 400)) then
        if Rlt_dec (Rabs (cx - 450)) (Rabs (cx - 425)) then Some "C"%string
        else Some "B"%string
      else
        if Rlt_dec (Rabs (cx - 450)) (Rabs (cx - 400)) then Some "C"%string
        else Some "A"%string
    else if Rlt_dec (Rabs (cx - 425)) 20 then
      if Rlt_dec (Rabs (cx - 450)) (Rabs (cx - 425)) then Some "C"%string
      else Some "B"%string
    else if Rlt_dec (Rabs (cx - 450)) 20 then Some "C"%string
    else None.
Proof.
  unfold hitTest, lineScene. cbn [foldl points]. unfold hitStep.
  rewrite !clickDist_flat.
  replace (25 * 0 + 400) with 400 by lra.
  replace (25 * 1 + 400) with 425 by lra.
  replace (25 * 2 + 400) with 450 by lra.
  cbn [snd JS.ltb].
  destruct (Rlt_dec (Rabs (cx - 400)) 20); cbn [snd fst JS.ltb id pointAt];
    destruct (Rlt_dec (Rabs (cx - 425)) _); cbn [snd fst JS.ltb id pointAt];
    destruct (Rlt_dec (Rabs (cx - 450)) _); cbn [snd fst JS.ltb id pointAt];
    reflexivity.
Qed.

Lemma hitTest_lineScene_A measuring pair :
  (hitTest (flatState measuring pair) lineScene 800 600 400 300).1
  = Some "A"%string.
Proof.
  rewrite hitTest_lineScene.
  destruct (Rlt_dec (Rabs (400 - 400)) 20); [| exfalso; rabs_lra].
  destruct (Rlt_dec (Rabs (400 - 425)) _); [exfalso; rabs_lra |].
  destruct (Rlt_dec (Rabs (400 - 450)) _); [exfalso; rabs_lra | reflexivity].
Qed.

Lemma hitTest_lineScene_B measuring pair :
  (hitTest (flatState measuring pair) lineScene 800 600 425 300).1
  = Some "B"%string.
Proof.
  rewrite hitTest_lineScene.
  destruct (Rlt_dec (Rabs (425 - 400)) 20); [exfalso; rabs_lra |].
  destruct (Rlt_dec (Rabs (425 - 425)) 20); [| exfalso; rabs_lra].
  destruct (Rlt_dec (Rabs (425 - 450)) _); [exfalso; rabs_lra | reflexivity].
Qed.

Lemma hitTest_lineScene_C measuring pair :
  (hitTest (flatState measuring pair) lineScene 800 600 450 300).1
  = Some "C"%string.
Proof.
  rewrite hitTest_lineScene.
  destruct (Rlt_dec (Rabs (450 - 400)) 20); [exfalso; rabs_lra |].
  destruct (Rlt_dec (Rabs (450 - 425)) 20); [exfalso; rabs_lra |].
  destruct (Rlt_dec (Rabs (450 - 450)) 20); [reflexivity | exfalso; rabs_lra].
Qed.

Lemma hitTest_lineScene_far measuring pair :
  (hitTest (flatState measuring pair) lineScene 800 600 100 300).1 = None.
Proof.
  rewrite hitTest_lineScene.
  destruct (Rlt_dec (Rabs (100 - 400)) 20); [exfalso; rabs_lra |].
  destruct (Rlt_dec (Rabs (100 - 425)) 20); [exfalso; rabs_lra |].
  destruct (Rlt_dec (Rabs (100 - 450)) 20); [exfalso; rabs_lra | reflexivity].
Qed.


(** ** Measurement pair and modes *)

Lemma clickHits_page measuring pair cx cid :
  (hitTest (flatState measuring pair) lineScene 800 600 cx 300).1 = Some cid ->
  cid <> EmptyString ->
  clickHits lineScene page {| posX := cx; posY := 300 |}
    (flatState measuring pair) cid.
Proof.
  intros Hhit Hne. eexists. split; [reflexivity |].
  cbn [width height rectLeft rectTop posX posY].
  replace (cx - 0) with cx by lra. replace (300 - 0) with 300 by lra.
  split; assumption.
Qed.

Lemma handleCanvasClick_measure scene dom e st cid :
  isMeasurementMode st = true -> clickHits scene dom e st cid ->
  handleCanvasClick scene dom e st = setMeasurePoints (addMeasurePoint cid) st.
Proof.
  intros Hmode (cv & Hcv & Hhit & Hne).
  rewrite (handleCanvasClick_point scene dom cv e st cid Hcv Hhit Hne).
  rewrite Hmode. reflexivity.
Qed.

(** C3: in measurement mode a click on a point makes the pair the
    singleton of the clicked id when it held two ids, leaves it unchanged
    when it holds the id already, and appends the id otherwise.  The pair
    therefore never holds more than two ids, and three clicks on distinct
    points A, B, C take it from [] to [A], [A, B] and [C]. *)
Theorem measurement_pair_rollover :
  (forall scene dom e st cid,
     isMeasurementMode st = true -> clickHits scene dom e st cid ->
     let prev := measurePoints st in
     let next := measurePoints (handleCanvasClick scene dom e st) in
     (length prev = 2%nat -> next = [cid])
     /\ (length prev <> 2%nat -> cid ∈ prev -> next = prev)
     /\ (length prev <> 2%nat -> cid ∉ prev -> next = prev ++ [cid]))
  /\ (forall trace, (length (measurePoints (run trace initialState)) <= 2)%nat)
  /\ (forall scene dom eA eB eC st A B C,
        A <> B -> B <> C -> A <> C ->
        isMeasurementMode st = true -> measurePoints st = [] ->
        let st1 := handleCanvasClick scene dom eA st in
        let st2 := handleCanvasClick scene dom eB st1 in
        let st3 := handleCanvasClick scene dom eC st2 in
        clickHits scene dom eA st A ->
        clickHits scene dom eB st1 B ->
        clickHits scene dom eC st2 C ->
        measurePoints st1 = [A] /\ measurePoints st2 = [A; B]
        /\ measurePoints st3 = [C]).
Proof.
  split; [| split].
  - intros scene dom e st cid Hmode Hhit prev next. subst prev next.
    rewrite (handleCanvasClick_measure _ _ _ _ _ Hmode Hhit).
    cbn [measurePoints setMeasurePoints].
    auto using addMeasurePoint_full, addMeasurePoint_present,
      addMeasurePoint_fresh.
  - intros trace. apply reachable_inv, run_reachable.
  - intros scene dom eA eB eC st A B C HAB HBC HAC Hmode Hnil st1 st2 st3.
    subst st3 st2 st1. intros HA.
    rewrite (handleCanvasClick_measure _ _ _ _ _ Hmode HA).
    intros HB.
    rewrite (handleCanvasClick_measure _ _ _
               (setMeasurePoints (addMeasurePoint A) st) _ Hmode HB).
    intros HC.
    rewrite (handleCanvasClick_measure _ _ _
               (setMeasurePoints (addMeasurePoint B)
                  (setMeasurePoints (addMeasurePoint A) st)) _ Hmode HC).
    cbn [measurePoints setMeasurePoints]. rewrite Hnil.
    unfold addMeasurePoint. cbn [length Nat.eqb app].
    rewrite bool_decide_eq_false_2 by (intros Hin; inversion Hin).
    cbn [length Nat.eqb app].
    rewrite bool_decide_eq_false_2
      by (intros Hin; apply list_elem_of_singleton in Hin; congruence).
    auto.
Qed.

Lemma measurement_pair_rollover_witness :
  let eA := {| posX := 400; posY := 300 |} in
  let eB := {| posX := 425; posY := 300 |} in
  let eC := {| posX := 450; posY := 300 |} in
  let st := flatState true [] in
  let st1 := handleCanvasClick lineScene page eA st in
  let st2 := handleCanvasClick lineScene page eB st1 in
  let st3 := handleCanvasClick lineScene page eC st2 in
  measurePoints st1 = ["A"%string]
  /\ measurePoints st2 = ["A"%string; "B"%string]
  /\ measurePoints st3 = ["C"%string].
Proof.
  intros eA eB eC st.
  assert (HA : clickHits lineScene page eA st "A")
    by (apply clickHits_page; [apply hitTest_lineScene_A | discriminate]).
  assert (E1 : handleCanvasClick lineScene page eA st = flatState true ["A"%string])
    by (rewrite (handleCanvasClick_measure lineScene page eA st _ eq_refl HA);
        reflexivity).
  assert (HB : clickHits lineScene page eB (flatState true ["A"%string]) "B")
    by (apply clickHits_page; [apply hitTest_lineScene_B | discriminate]).
  assert (E2 : handleCanvasClick lineScene page eB (flatState true ["A"%string])
               = flatState true ["A"%string; "B"%string])
    by (rewrite (handleCanvasClick_measure lineScene page eB
                   (flatState true ["A"%string]) _ eq_refl HB);
        reflexivity).
  assert (HC : clickHits lineScene page eC
                 (flatState true ["A"%string; "B"%string]) "C")
    by (apply clickHits_page; [apply hitTest_lineScene_C | discriminate]).
  apply (proj2 (proj2 measurement_pair_rollover) lineScene page eA eB eC st
           "A"%string "B"%string "C"%string);
    try discriminate; try reflexivity.
  - exact HA.
  - rewrite E1. exact HB.
  - rewrite E1, E2. exact HC.
Defined.

(** C6: in every state the component can reach, a detail selection and a
    non-empty measurement pair do not coexist, and either mode button
    leaves the selection null and the pair empty: entering measurement mode
    clears the selected point, leaving it clears the pair. *)
Theorem mode_switch_clears_selection
    (trace : list (GeometryScene * Dom * Event)) :
  let st := run trace initialState in
  (selectedPointId st = None \/ measurePoints st = [])
  /\ (isMeasurementMode (toggleMeasurementMode st) = negb (isMeasurementMode st)
      /\ selectedPointId (toggleMeasurementMode st) = None
      /\ measurePoints (toggleMeasurementMode st) = [])
  /\ (isMeasurementMode (selectModeClick st) = false
      /\ selectedPointId (selectModeClick st) = None
      /\ measurePoints (selectModeClick st) = []).
Proof.
  intros st.
  destruct (reachable_inv st (run_reachable trace)) as (_ & Hm & Hs).
  destruct (toggleMeasurementMode_clears st) as (Hc & Hon & Hoff).
  destruct (isMeasurementMode st) eqn:Hmode.
  - destruct (Hoff eq_refl) as [Hmode' Hsel]. rewrite Hsel, (Hm eq_refl).
    repeat split; auto.
  - destruct (Hon eq_refl) as [Hmode' Hsel].
    repeat split; auto.
Qed.

(** A click on the centre of the canvas selects a point at the origin
    under the initial camera, and the Measure button then drops that
    selection. *)
Example select_then_measure :
  let scene := {| points := [ pointAt "O" 0 0 0 ]; segments := [] |} in
  let click := {| posX := 400; posY := 300 |} in
  let st := run [ (scene, page, MouseDown click); (scene, page, MouseUp click) ]
              initialState in
  selectedPointId st = Some "O"%string
  /\ selectedPointId (step scene page MeasureButtonClick st) = None.
Proof.
  intros scene click st.
  assert (Hst : st = setSelectedPointId (Some "O"%string)
                       (setIsDragging false (handleMouseDown click initialState))).
  { unfold st, run. cbn [foldl step]. unfold handleMouseUp. cbv zeta.
    destruct (Rlt_dec _ 5) as [_ | Hfar].
    - rewrite (handleCanvasClick_point scene page _ click _ "O" eq_refl);
        [reflexivity | | discriminate].
      unfold hitTest, hitStep, clickDist. cbn [foldl points scene].
      destruct (project_origin (rotation initialState) (scale initialState)
                  800 600 (pointAt "O" 0 0 0) eq_refl eq_refl eq_refl)
        as [Hx Hy].
      cbn [rotation scale setIsDragging handleMouseDown width height
           rectLeft rectTop posX posY click].
      rewrite Hx, Hy. cbn [JS.sub JS.neg JS.add JS.mul].
      rewrite sqrt_fin by (apply Rplus_le_le_0_compat; apply Rle_0_sqr).
      cbn [snd JS.ltb].
      destruct (Rlt_dec _ 20) as [_ | Hnot]; [reflexivity |].
      exfalso. apply Hnot.
      replace ((400 - 0 + - (800 / 2)) * (400 - 0 + - (800 / 2))
               + (300 - 0 + - (600 / 2)) * (300 - 0 + - (600 / 2)))
        with 0 by lra.
      rewrite sqrt_0. lra.
    - exfalso. apply Hfar.
      cbn [mouseDownPos handleMouseDown posX posY click].
      replace ((400 - 400) ^ 2 + (300 - 300) ^ 2) with 0 by lra.
      rewrite sqrt_0. lra. }
  rewrite Hst. split; reflexivity.
Qed.

(** ** The draw pass *)

Section DrawFacts.

Variable P : Platform.
Variable st : State.
Variable scene : GeometryScene.
Variables w h : R.

Let M := projectedPoints st scene w h.

Lemma insertAll_snoc (m : gmap string Projected) l p :
  foldl (fun m p => <[ id p := proj st w h p ]> m) m (l ++ [p])
  = <[ id p := proj st w h p ]>
      (foldl (fun m p => <[ id p := proj st w h p ]> m) m l).
Proof. rewrite foldl_app. reflexivity. Qed.


(** Every id carried by a scene point has an entry, and no other id. *)
Lemma projectedPoints_is_Some k :
  is_Some (M !! k) <-> k ∈ map id (points scene).
Proof.
  unfold M, projectedPoints.
  induction (points scene) as [| p l IH] using rev_ind.
  - cbn. rewrite lookup_empty. split; [intros [? [=]] | intros Hin; inversion Hin].
  - rewrite insertAll_snoc, map_app, elem_of_app. cbn [map].
    rewrite list_elem_of_singleton, lookup_insert.
    case_decide as Hk.
    + split; [intros _; right; congruence | eauto].
    + rewrite IH. split; [auto | intros [? | ?]; [assumption | congruence]].
Qed.




Lemma drawSegment_in_frame seg c :
  seg ∈ segments scene -> c ∈ drawSegment st scene w h seg ->
  c ∈ drawFrame P st scene w h.
Proof.
  intros Hseg Hc. unfold drawFrame.
  rewrite !elem_of_app. right. right. right. left.
  unfold drawSegments. apply list_elem_of_In, in_concat.
  exists (drawSegment st scene w h seg). split.
  - apply in_map, list_elem_of_In, Hseg.
  - apply list_elem_of_In, Hc.
Qed.








(** The texts of the measurement layer do not depend on the camera. *)
Lemma drawMeasurement_texts :
  fillTexts (drawMeasurement P st scene w h)
  = match measurePoints st with
    | a :: b :: _ =>
        match findPoint scene a, findPoint scene b with
        | Some p1Data, Some p2Data =>
            [ toFixed P (getDistance p1Data p2Data) ]
        | _, _ => []
        end
    | _ => []
    end.
Proof.
  assert (Hfound : forall k p, findPoint scene k = Some p -> is_Some (M !! id p)).
  { intros k p Hf. apply projectedPoints_is_Some.
    apply list_elem_of_In, in_map. unfold findPoint in Hf.
    apply find_some in Hf. apply Hf. }
  assert (Hring : forall o, fillTexts (drawRing o) = []).
  { intros [pr |]; reflexivity. }
  unfold drawMeasurement. fold M.
  destruct (measurePoints st) as [| a [| b rest]]; [reflexivity | |].
  - cbn [length Nat.ltb Nat.leb lookup list_lookup mbind option_bind].
    unfold fillTexts. rewrite !omap_app. fold fillTexts.
    rewrite !Hring.
    destruct (findPoint scene a) as [pa |]; cbn [mbind option_bind];
      [destruct (M !! id pa) |]; reflexivity.
  - cbn [length Nat.ltb Nat.leb lookup list_lookup mbind option_bind].
    unfold fillTexts. rewrite !omap_app. fold fillTexts.
    rewrite !Hring, !app_nil_r.
    destruct (findPoint scene a) as [pa |] eqn:Ha; cbn [mbind option_bind].
    + destruct (Hfound a pa Ha) as [pra ->].
      destruct (findPoint scene b) as [pb |] eqn:Hb; cbn [mbind option_bind].
      * destruct (Hfound b pb Hb) as [prb ->]. reflexivity.
      * reflexivity.
    + destruct (findPoint scene b) as [pb |]; cbn [mbind option_bind];
        [destruct (M !! id pb) |]; reflexivity.
Qed.

End DrawFacts.

Lemma drawPointsStep_selected st scene w h seen acc p :
  is_Some (projectedPoints st scene w h !! id p) ->
  selectedInv st (projectedPoints st scene w h) seen acc ->
  selectedInv st (projectedPoints st scene w h) (seen ++ [p])
    (drawPointsStep st scene w h acc p).
Proof.
  intros [pr Hpr]. unfold selectedInv, drawPointsStep. rewrite Hpr.
  destruct (isSelected st p) eqn:Hsel; cbn [fst snd].
  - intros _. split; [| auto].
    apply elem_of_app. right. apply list_elem_of_singleton. reflexivity.
  - destruct acc.2 as [[pr0 p0] |].
    + intros (Hin & Hs & Hl). split; [| auto]. apply elem_of_app. auto.
    + intros Hnone q Hq. apply elem_of_app in Hq as [Hq | Hq]; [auto |].
      apply list_elem_of_singleton in Hq as ->. exact Hsel.
Qed.

Lemma drawPoints_selected_prefix st scene w h l :
  (forall p, p ∈ l -> is_Some (projectedPoints st scene w h !! id p)) ->
  selectedInv st (projectedPoints st scene w h) l
    (foldl (drawPointsStep st scene w h) ([], None) l).
Proof.
  induction l as [| p l IH] using rev_ind; intros Hall.
  - intros q Hq. inversion Hq.
  - rewrite foldl_app. cbn [foldl]. apply drawPointsStep_selected.
    + apply Hall. apply elem_of_app. right.
      apply list_elem_of_singleton. reflexivity.
    + apply IH. intros q Hq. apply Hall. apply elem_of_app. auto.
Qed.

Lemma drawPoints_selected st scene w h :
  selectedInv st (projectedPoints st scene w h) (points scene)
    (drawPoints st scene w h).
Proof.
  apply drawPoints_selected_prefix. intros p Hp.
  apply projectedPoints_is_Some.
  apply list_elem_of_In, in_map, list_elem_of_In, Hp.
Qed.

Lemma isSelected_spec st p :
  isSelected st p = true
  <-> isMeasurementMode st = false /\ selectedPointId st = Some (id p).
Proof.
  unfold isSelected. destruct (selectedPointId st) as [sel |].
  - rewrite andb_true_iff, String.eqb_eq, negb_true_iff.
    split; [intros [-> ?]; auto | intros [? [= ->]]; auto].
  - split; [discriminate | intros [_ [=]]].
Qed.


Lemma Forall_concat_map {A B} (Q : B -> Prop) (f : A -> list B) (l : list A) :
  (forall a, a ∈ l -> Forall Q (f a)) -> Forall Q (concat (map f l)).
Proof.
  induction l as [| a l IH]; intros Hall; [constructor |].
  cbn [map concat]. apply Forall_app. split.
  - apply Hall. apply elem_of_cons. left. reflexivity.
  - apply IH. intros b Hb. apply Hall. apply elem_of_cons. auto.
Qed.






(** ** Measurement distance *)

Lemma getDistance_3_4 pA pB :
  x pA = 0 -> y pA = 0 -> z pA = 0 -> x pB = 3 -> y pB = 4 -> z pB = 0 ->
  getDistance pA pB = 5.
Proof.
  unfold getDistance. intros -> -> -> -> -> ->.
  replace ((3 - 0) ^ 2 + (4 - 0) ^ 2 + (0 - 0) ^ 2) with (5 * 5) by lra.
  apply sqrt_square. lra.
Qed.

Lemma toFixed_5 P : toFixed P 5 = "5.00"%string.
Proof.
  unfold toFixed.
  destruct (Rlt_dec 5 0) as [Hneg | _]; [lra |].
  destruct (Rle_dec (10 ^ 21) 5) as [Hbig | _].
  - exfalso. assert (Hpow : 10 ^ 1 <= 10 ^ 21) by (apply Rle_pow; [lra | lia]).
    lra.
  - replace (Zfloor (5 * 100 + / 2)) with 500%Z.
    + vm_compute. reflexivity.
    + symmetry. apply Zfloor_eq. lra.
Qed.

(** C5: the measured distance is the Euclidean distance of the world
    coordinates; the label the draw pass writes for a measurement pair is
    its two-decimal rendering, the same under any two cameras and viewport
    sizes, and for A = (0, 0, 0), B = (3, 4, 0) it reads 5.00. *)
Theorem measurement_distance_camera_invariant :
  (forall p1 p2,
     getDistance p1 p2
     = sqrt ((x p2 - x p1) ^ 2 + (y p2 - y p1) ^ 2 + (z p2 - z p1) ^ 2))
  /\ (forall P scene st1 st2 w1 h1 w2 h2,
        measurePoints st1 = measurePoints st2 ->
        fillTexts (drawMeasurement P st1 scene w1 h1)
        = fillTexts (drawMeasurement P st2 scene w2 h2))
  /\ (forall P scene st w h a b pA pB,
        measurePoints st = [a; b] ->
        findPoint scene a = Some pA -> findPoint scene b = Some pB ->
        x pA = 0 -> y pA = 0 -> z pA = 0 ->
        x pB = 3 -> y pB = 4 -> z pB = 0 ->
        fillTexts (drawMeasurement P st scene w h) = ["5.00"%string]).
Proof.
  split; [reflexivity |]. split.
  - intros P scene st1 st2 w1 h1 w2 h2 Hpair.
    rewrite !drawMeasurement_texts, Hpair. reflexivity.
  - intros P scene st w h a b pA pB Hpair HA HB Hx Hy Hz Hx' Hy' Hz'.
    rewrite drawMeasurement_texts, Hpair, HA, HB.
    rewrite (getDistance_3_4 pA pB) by assumption.
    rewrite toFixed_5. reflexivity.
Qed.

Lemma measurement_distance_camera_invariant_witness :
  fillTexts
    (drawMeasurement plainPlatform
       (setMeasurePoints (fun _ => ["A"%string; "B"%string])
          (setIsMeasurementMode true initialState))
       brokenScene 800 600)
  = ["5.00"%string].
Proof.
  apply (proj2 (proj2 measurement_distance_camera_invariant) plainPlatform
           brokenScene _ 800 600 "A"%string "B"%string
           (pointAt "A" 0 0 0) (pointAt "B" 3 4 0));
    reflexivity.
Defined.

(** * Further properties of the component *)

(** ** Camera gestures *)

Lemma handleCanvasClick_camera scene dom e st :
  rotation (handleCanvasClick scene dom e st) = rotation st
  /\ scale (handleCanvasClick scene dom e st) = scale st
  /\ isDragging (handleCanvasClick scene dom e st) = isDragging st
  /\ lastMouse (handleCanvasClick scene dom e st) = lastMouse st
  /\ mouseDownPos (handleCanvasClick scene dom e st) = mouseDownPos st
  /\ isMeasurementMode (handleCanvasClick scene dom e st)
     = isMeasurementMode st.
Proof.
  unfold handleCanvasClick.
  destruct (canvas dom) as [cv |]; [| repeat split; reflexivity].
  cbv zeta.
  destruct (hitTest _ _ _ _ _ _).1 as [cid |];
    repeat (match goal with
            | |- context [if ?b then _ else _] => destruct b eqn:?
            end);
    cbn; repeat split; solve [reflexivity | assumption].
Qed.

Lemma handleMouseUp_fields scene dom e st :
  rotation (handleMouseUp scene dom e st) = rotation st
  /\ scale (handleMouseUp scene dom e st) = scale st
  /\ isDragging (handleMouseUp scene dom e st) = false
  /\ isMeasurementMode (handleMouseUp scene dom e st) = isMeasurementMode st.
Proof.
  unfold handleMouseUp. cbv zeta.
  destruct (Rlt_dec _ 5); [| repeat split; reflexivity].
  destruct (handleCanvasClick_camera scene dom e (setIsDragging false st))
    as (Hr & Hs & Hd & _ & _ & Hm).
  rewrite Hr, Hs, Hd, Hm. repeat split; reflexivity.
Qed.

Lemma handleMouseMove_idle e st :
  isDragging st = false -> handleMouseMove e st = st.
Proof. intros Hd. unfold handleMouseMove. rewrite Hd. reflexivity. Qed.

(** The state after a press at [a] followed by moves through [ps]. *)
Lemma drag_state a ps st :
  let st' := foldl (fun st e => handleMouseMove e st) (handleMouseDown a st) ps in
  let b := List.last ps a in
  isDragging st' = true
  /\ lastMouse st' = {| posX := posX b; posY := posY b |}
  /\ rx (rotation st') = rx (rotation st) + (posY b - posY a) * 0.01
  /\ ry (rotation st') = ry (rotation st) + (posX b - posX a) * 0.01
  /\ scale st' = scale st
  /\ selectedPointId st' = selectedPointId st
  /\ isMeasurementMode st' = isMeasurementMode st
  /\ measurePoints st' = measurePoints st
  /\ mouseDownPos st' = {| posX := posX a; posY := posY a |}.
Proof.
  induction ps as [| e ps IH] using rev_ind.
  - cbn. repeat split; lra.
  - cbv zeta in *. rewrite foldl_app, last_last. cbn [foldl].
    set (s0 := foldl _ (handleMouseDown a st) ps) in *.
    destruct IH as (Hd & Hl & Hx & Hy & Hs & Hsel & Hm & Hp & Hdown).
    unfold handleMouseMove. rewrite Hd. cbn [negb].
    cbn [isDragging lastMouse rotation rx ry scale selectedPointId
         isMeasurementMode measurePoints mouseDownPos].
    rewrite Hl, Hx, Hy. cbn [posX posY].
    repeat split; auto; lra.
Qed.

(** X2: the rotation changes only on a pointer move made while dragging,
    and the scale only on a wheel event. *)
Theorem camera_changes_only_by_gesture (scene : GeometryScene) (dom : Dom)
    (ev : Event) (st : State) :
  (isDragging st = false -> rotation (step scene dom ev st) = rotation st)
  /\ ((forall e, ev <> MouseMove e) ->
      rotation (step scene dom ev st) = rotation st)
  /\ ((forall deltaY, ev <> Wheel deltaY) ->
      scale (step scene dom ev st) = scale st).
Proof.
  pose proof (handleMouseUp_fields scene dom) as Hup.
  assert (Htoggle : rotation (toggleMeasurementMode st) = rotation st
                    /\ scale (toggleMeasurementMode st) = scale st).
  { unfold toggleMeasurementMode. cbv zeta.
    destruct (negb (isMeasurementMode st)); split; reflexivity. }
  split; [| split].
  - intros Hidle. destruct ev; cbn [step]; try reflexivity;
      try apply Hup; try apply Htoggle.
    rewrite handleMouseMove_idle by exact Hidle. reflexivity.
  - intros Hev. destruct ev; cbn [step]; try reflexivity;
      try apply Hup; try apply Htoggle.
    exfalso. exact (Hev e eq_refl).
  - intros Hev. destruct ev; cbn [step]; try reflexivity;
      try apply Hup; try apply Htoggle.
    + unfold handleMouseMove. destruct (negb (isDragging st)); reflexivity.
    + exfalso. exact (Hev deltaY eq_refl).
Qed.

Lemma camera_changes_only_by_gesture_witness :
  rotation (step lineScene page (MouseMove {| posX := 7; posY := 9 |})
              initialState)
  = rotation initialState
  /\ scale (step lineScene page MeasureButtonClick initialState)
     = scale initialState.
Proof.
  split.
  - apply (proj1 (camera_changes_only_by_gesture lineScene page
                    (MouseMove {| posX := 7; posY := 9 |}) initialState)).
    reflexivity.
  - apply (proj2 (proj2 (camera_changes_only_by_gesture lineScene page
                           MeasureButtonClick initialState))).
    intros deltaY. discriminate.
Defined.

(** X3: pressing, moving and scrolling never touch the selection, the
    measurement pair or the mode. *)
Theorem camera_events_keep_selection (scene : GeometryScene) (dom : Dom)
    (ev : Event) (st : State) :
  match ev with
  | MouseDown _ | MouseMove _ | Wheel _ =>
      selectedPointId (step scene dom ev st) = selectedPointId st
      /\ measurePoints (step scene dom ev st) = measurePoints st
      /\ isMeasurementMode (step scene dom ev st) = isMeasurementMode st
  | _ => True
  end.
Proof.
  destruct ev; cbn [step]; auto.
  unfold handleMouseMove. destruct (negb (isDragging st)); auto.
Qed.

(** X4: a press at [a], any moves, and a release (or a leave) at [b] five
    pixels or more away from [a] is a drag: it ends with the dragging flag
    lowered and changes neither the selection, nor the measurement pair,
    nor the mode, nor the scale. *)
Theorem drag_is_not_a_click (scene : GeometryScene) (dom : Dom)
    (a b : Pos) (ps : list Pos) (st : State) :
  5 <= sqrt ((posX b - posX a) ^ 2 + (posY b - posY a) ^ 2) ->
  let st' :=
    handleMouseUp scene dom b
      (foldl (fun st e => handleMouseMove e st) (handleMouseDown a st) ps) in
  isDragging st' = false
  /\ selectedPointId st' = selectedPointId st
  /\ measurePoints st' = measurePoints st
  /\ isMeasurementMode st' = isMeasurementMode st
  /\ scale st' = scale st.
Proof.
  intros Hfar st'. subst st'.
  destruct (drag_state a ps st)
    as (_ & _ & _ & _ & Hs & Hsel & Hm & Hp & Hdown).
  cbv zeta in *. unfold handleMouseUp. cbv zeta. rewrite Hdown.
  cbn [posX posY].
  destruct (Rlt_dec _ 5) as [Hnear | _]; [lra |].
  cbn. auto.
Qed.

Lemma drag_is_not_a_click_witness :
  let st' :=
    handleMouseUp lineScene page {| posX := 403; posY := 304 |}
      (foldl (fun st e => handleMouseMove e st)
         (handleMouseDown {| posX := 400; posY := 300 |} initialState)
         [ {| posX := 402; posY := 301 |} ]) in
  isDragging st' = false
  /\ selectedPointId st' = selectedPointId initialState
  /\ measurePoints st' = measurePoints initialState
  /\ isMeasurementMode st' = isMeasurementMode initialState
  /\ scale st' = scale initialState.
Proof.
  apply (drag_is_not_a_click lineScene page {| posX := 400; posY := 300 |}
           {| posX := 403; posY := 304 |} [ {| posX := 402; posY := 301 |} ]
           initialState).
  cbn [posX posY].
  replace ((403 - 400) ^ 2 + (304 - 300) ^ 2) with (5 * 5) by lra.
  rewrite sqrt_square; lra.
Defined.

(** X5: a release or a leave ends the drag: pointer moves that follow
    change nothing until the next press. *)
Theorem moves_after_release_are_ignored (scene : GeometryScene) (dom : Dom)
    (e : Pos) (ps : list Pos) (st : State) :
  isDragging (step scene dom (MouseUp e) st) = false
  /\ isDragging (step scene dom (MouseLeave e) st) = false
  /\ foldl (fun st e => handleMouseMove e st)
       (step scene dom (MouseUp e) st) ps
     = step scene dom (MouseUp e) st.
Proof.
  cbn [step].
  destruct (handleMouseUp_fields scene dom e st) as (_ & _ & Hd & _).
  repeat split; try exact Hd.
  induction ps as [| p ps IH]; [reflexivity |].
  cbn [foldl]. rewrite handleMouseMove_idle by exact Hd. exact IH.
Qed.

(** X6: on a state the component can reach, scrolling down never zooms
    in, scrolling up never zooms out, and a wheel event without vertical
    travel changes nothing. *)
Theorem wheel_direction (trace : list (GeometryScene * Dom * Event))
    (deltaY : R) :
  let st := run trace initialState in
  (0 <= deltaY -> scale (handleWheel deltaY st) <= scale st)
  /\ (deltaY <= 0 -> scale st <= scale (handleWheel deltaY st))
  /\ handleWheel 0 st = st.
Proof.
  intros st. pose proof (reachable_scale st (run_reachable trace)) as Hs.
  unfold handleWheel, setScale. cbn [scale].
  split; [| split].
  - intros Hd. unfold Rmax, Rmin.
    destruct (Rle_dec 500 _); destruct (Rle_dec 20 _); lra.
  - intros Hd. unfold Rmax, Rmin.
    destruct (Rle_dec 500 _); destruct (Rle_dec 20 _); lra.
  - assert (E : Rmax 20 (Rmin 500 (scale st - 0 * 0.1)) = scale st).
    { unfold Rmax, Rmin.
      destruct (Rle_dec 500 _); destruct (Rle_dec 20 _); lra. }
    rewrite E. destruct st; reflexivity.
Qed.

Lemma wheel_direction_witness :
  scale (handleWheel 120 (run [] initialState))
  <= scale (run [] initialState).
Proof.
  apply (proj1 (wheel_direction [] 120)). lra.
Defined.

(** ** Clicks *)

Lemma lt_nlt_trans (a b c : number) :
  JS.lt a b -> ~ JS.lt c b -> JS.lt c (Fin 20) -> JS.lt a c.
Proof. destruct a, b, c; simpl; try tauto; lra. Qed.

Lemma hitStep_invFirst st w h cx cy seen acc p :
  hitInvFirst (clickDist st w h cx cy) seen acc ->
  hitInvFirst (clickDist st w h cx cy) (seen ++ [p])
    (hitStep st w h cx cy acc p).
Proof.
  set (dist := clickDist st w h cx cy).
  destruct acc as [cid md]. unfold hitInvFirst, hitStep. cbn [fst snd].
  fold dist. intros Hinv.
  destruct (JS.ltb (dist p) md) eqn:Hlt; cbn [fst snd].
  - apply ltb_lt in Hlt. exists seen, p, []. split; [reflexivity |].
    split; [reflexivity |]. split; [reflexivity |].
    destruct cid as [i |].
    + destruct Hinv as (l1 & p0 & l2 & -> & _ & -> & H20 & Hbefore & Hafter).
      split; [eapply lt_trans; eassumption |]. split.
      * intros q Hq Hq20. apply elem_of_app in Hq as [Hq | Hq].
        -- eapply lt_trans; [exact Hlt | auto].
        -- apply elem_of_cons in Hq as [-> | Hq]; [exact Hlt |].
           eapply lt_nlt_trans; eauto.
      * intros q Hq. inversion Hq.
    + destruct Hinv as [-> Hnone]. split; [exact Hlt |]. split.
      * intros q Hq Hq20. exfalso. exact (Hnone q Hq Hq20).
      * intros q Hq. inversion Hq.
  - apply ltb_nlt in Hlt. destruct cid as [i |].
    + destruct Hinv as (l1 & p0 & l2 & -> & Hid & -> & H20 & Hbefore & Hafter).
      exists l1, p0, (l2 ++ [p]). rewrite <- app_assoc. cbn [app].
      repeat split; auto.
      intros q Hq. apply elem_of_app in Hq as [Hq | Hq]; [auto |].
      apply list_elem_of_singleton in Hq as ->. exact Hlt.
    + destruct Hinv as [-> Hnone]. split; [reflexivity |].
      intros q Hq. apply elem_of_app in Hq as [Hq | Hq]; [auto |].
      apply list_elem_of_singleton in Hq as ->. exact Hlt.
Qed.

Lemma hitTest_invFirst st scene w h cx cy :
  hitInvFirst (clickDist st w h cx cy) (points scene)
    (hitTest st scene w h cx cy).
Proof.
  unfold hitTest.
  induction (points scene) as [| p seen IH] using rev_ind.
  - cbn. split; [reflexivity |]. intros q Hq. inversion Hq.
  - rewrite foldl_app. cbn [foldl]. apply hitStep_invFirst, IH.
Qed.

(** X7: among several points at the least distance the hit-test keeps the
    first in scene order: every earlier point within the radius is
    strictly farther from the click, no later point is strictly nearer,
    and the distance kept is the distance of that point. *)
Theorem hit_test_first_nearest (st : State) (scene : GeometryScene)
    (w h cx cy : R) (i : string) :
  (hitTest st scene w h cx cy).1 = Some i ->
  exists l1 p l2,
    points scene = l1 ++ p :: l2 /\ id p = i
    /\ (hitTest st scene w h cx cy).2 = clickDist st w h cx cy p
    /\ JS.lt (clickDist st w h cx cy p) (Fin 20)
    /\ (forall q, q ∈ l1 -> JS.lt (clickDist st w h cx cy q) (Fin 20) ->
          JS.lt (clickDist st w h cx cy p) (clickDist st w h cx cy q))
    /\ (forall q, q ∈ l2 ->
          ~ JS.lt (clickDist st w h cx cy q) (clickDist st w h cx cy p)).
Proof.
  intros Hi. pose proof (hitTest_invFirst st scene w h cx cy) as Hinv.
  unfold hitInvFirst in Hinv. rewrite Hi in Hinv. exact Hinv.
Qed.

Lemma hit_test_first_nearest_witness :
  exists l1 p l2,
    points lineScene = l1 ++ p :: l2 /\ id p = "B"%string
    /\ (hitTest (flatState false []) lineScene 800 600 425 300).2
       = clickDist (flatState false []) 800 600 425 300 p
    /\ JS.lt (clickDist (flatState false []) 800 600 425 300 p) (Fin 20)
    /\ (forall q, q ∈ l1 ->
          JS.lt (clickDist (flatState false []) 800 600 425 300 q) (Fin 20) ->
          JS.lt (clickDist (flatState false []) 800 600 425 300 p)
                (clickDist (flatState false []) 800 600 425 300 q))
    /\ (forall q, q ∈ l2 ->
          ~ JS.lt (clickDist (flatState false []) 800 600 425 300 q)
                  (clickDist (flatState false []) 800 600 425 300 p)).
Proof.
  exact (hit_test_first_nearest (flatState false []) lineScene 800 600 425 300
           "B"%string (hitTest_lineScene_B false [])).
Defined.

(** The outcomes of a click. *)
Lemma handleCanvasClick_cases scene dom e st :
  handleCanvasClick scene dom e st = st
  \/ handleCanvasClick scene dom e st = setSelectedPointId None st
  \/ exists cid, cid <> EmptyString
       /\ (handleCanvasClick scene dom e st
             = setMeasurePoints (addMeasurePoint cid) st
           \/ handleCanvasClick scene dom e st
             = setSelectedPointId (Some cid) st).
Proof.
  unfold handleCanvasClick.
  destruct (canvas dom) as [cv |]; [| auto]. cbv zeta.
  destruct (hitTest _ _ _ _ _ _).1 as [cid |].
  - cbn [JS.truthy]. destruct (String.eqb_spec cid EmptyString) as [-> | Hne];
      cbn [negb].
    + destruct (isMeasurementMode st); cbn [negb]; auto.
    + right. right. exists cid. split; [exact Hne |].
      destruct (isMeasurementMode st); auto.
  - destruct (isMeasurementMode st); cbn [negb]; auto.
Qed.

Lemma addMeasurePoint_elem x closestId prev :
  x ∈ addMeasurePoint closestId prev -> x = closestId \/ x ∈ prev.
Proof.
  unfold addMeasurePoint. destruct (Nat.eqb (length prev) 2).
  - intros Hx. apply list_elem_of_singleton in Hx. auto.
  - case_bool_decide; [auto |]. intros Hx.
    apply elem_of_app in Hx as [Hx | Hx]; [auto |].
    apply list_elem_of_singleton in Hx. auto.
Qed.

Lemma addMeasurePoint_NoDup closestId prev :
  NoDup prev -> NoDup (addMeasurePoint closestId prev).
Proof.
  intros Hnd. unfold addMeasurePoint. destruct (Nat.eqb (length prev) 2).
  - apply NoDup_singleton.
  - case_bool_decide as Hin; [exact Hnd |].
    apply NoDup_app. repeat split; [exact Hnd | | apply NoDup_singleton].
    intros x Hx Hx'. apply list_elem_of_singleton in Hx' as ->. contradiction.
Qed.

(** What every step keeps of the ids the selection holds: the pair has no
    repeated id, and the empty id is neither selected nor measured. *)
Lemma step_ids scene dom ev st :
  NoDup (measurePoints st) /\ selectedPointId st <> Some EmptyString
  /\ EmptyString ∉ measurePoints st ->
  NoDup (measurePoints (step scene dom ev st))
  /\ selectedPointId (step scene dom ev st) <> Some EmptyString
  /\ EmptyString ∉ measurePoints (step scene dom ev st).
Proof.
  intros (Hnd & Hsel & Hemp).
  assert (Hclick : forall e st0,
            measurePoints st0 = measurePoints st ->
            selectedPointId st0 = selectedPointId st ->
            NoDup (measurePoints (handleCanvasClick scene dom e st0))
            /\ selectedPointId (handleCanvasClick scene dom e st0)
               <> Some EmptyString
            /\ EmptyString ∉ measurePoints (handleCanvasClick scene dom e st0)).
  { intros e st0 Hp Hs.
    destruct (handleCanvasClick_cases scene dom e st0)
      as [-> | [-> | (cid & Hne & [-> | ->])]];
      cbn [measurePoints selectedPointId setSelectedPointId setMeasurePoints];
      rewrite ?Hp, ?Hs; repeat split; auto; try discriminate.
    - apply addMeasurePoint_NoDup, Hnd.
    - intros Hin. apply addMeasurePoint_elem in Hin as [Hin | Hin]; auto.
    - congruence. }
  destruct ev; cbn [step]; auto.
  - unfold handleMouseMove. destruct (negb (isDragging st)); auto.
  - unfold handleMouseUp. cbv zeta. destruct (Rlt_dec _ 5); auto.
  - unfold handleMouseUp. cbv zeta. destruct (Rlt_dec _ 5); auto.
  - unfold toggleMeasurementMode. cbv zeta.
    destruct (negb (isMeasurementMode st)); cbn;
      repeat split; auto using NoDup_nil_2; try discriminate;
      intros Hin; inversion Hin.
  - cbn. repeat split; auto using NoDup_nil_2; try discriminate.
    intros Hin; inversion Hin.
Qed.

Lemma reachable_ids st :
  reachable st ->
  NoDup (measurePoints st) /\ selectedPointId st <> Some EmptyString
  /\ EmptyString ∉ measurePoints st.
Proof.
  induction 1 as [| scene dom ev st _ IH].
  - cbn. repeat split; auto using NoDup_nil_2; try discriminate.
    intros Hin; inversion Hin.
  - apply step_ids, IH.
Qed.

(** X8: whatever the events, the measurement pair never holds the same id
    twice. *)
Theorem measurement_pair_distinct
    (trace : list (GeometryScene * Dom * Event)) :
  NoDup (measurePoints (run trace initialState)).
Proof. apply reachable_ids, run_reachable. Qed.

(** X9: the empty id is never selected and never enters the measurement
    pair, whatever the scenes hold: a click whose nearest point carries
    the empty id is handled as a click on empty space. *)
Theorem empty_id_never_selected
    (trace : list (GeometryScene * Dom * Event)) :
  let st := run trace initialState in
  selectedPointId st <> Some EmptyString
  /\ (EmptyString ∉ measurePoints st)
  /\ (forall scene dom cv e,
        canvas dom = Some cv ->
        (hitTest st scene (IZR (width cv)) (IZR (height cv))
           (posX e - rectLeft cv) (posY e - rectTop cv)).1
        = Some EmptyString ->
        handleCanvasClick scene dom e st
        = if isMeasurementMode st then st else setSelectedPointId None st).
Proof.
  intros st.
  destruct (reachable_ids st (run_reachable trace)) as (_ & Hsel & Hemp).
  repeat split; auto.
  intros scene dom cv e Hcv Hhit. apply (handleCanvasClick_empty_id _ _ cv); auto.
Qed.

Lemma clickDist_at_projection st w h cx cy p a b :
  px (project (rotation st) (scale st) p w h) = Fin a ->
  py (project (rotation st) (scale st) p w h) = Fin b ->
  cx = a -> cy = b ->
  clickDist st w h cx cy p = Fin 0.
Proof.
  intros Hx Hy -> ->. unfold clickDist. cbv zeta. rewrite Hx, Hy.
  cbn [JS.sub JS.neg JS.add JS.mul].
  replace ((a + - a) * (a + - a) + (b + - b) * (b + - b)) with 0 by ring.
  rewrite sqrt_fin by lra. rewrite sqrt_0. reflexivity.
Qed.

(** A scene whose only point sits at the origin: a click on the centre of
    the 800 x 600 canvas finds it under any camera. *)
Lemma hitTest_origin_only st name segs :
  (hitTest st {| points := [ pointAt name 0 0 0 ]; segments := segs |}
     800 600 (400 - 0) (300 - 0)).1 = Some name.
Proof.
  unfold hitTest, hitStep. cbn [foldl points].
  destruct (project_origin (rotation st) (scale st) 800 600
              (pointAt name 0 0 0) eq_refl eq_refl eq_refl) as [Hx Hy].
  rewrite (clickDist_at_projection st 800 600 _ _ _ _ _ Hx Hy) by lra.
  cbn [snd JS.ltb]. destruct (Rlt_dec 0 20); [reflexivity | lra].
Qed.

Lemma empty_id_never_selected_witness :
  handleCanvasClick
    {| points := [ pointAt EmptyString 0 0 0 ]; segments := [] |} page
    {| posX := 400; posY := 300 |} (run [] initialState)
  = setSelectedPointId None (run [] initialState).
Proof.
  apply (proj2 (proj2 (empty_id_never_selected []))
           {| points := [ pointAt EmptyString 0 0 0 ]; segments := [] |} page
           {| width := 800; height := 600; rectLeft := 0; rectTop := 0;
              hasContext := true |}
           {| posX := 400; posY := 300 |} eq_refl).
  apply hitTest_origin_only.
Defined.



Lemma sqrt_range (a : number) (bound : R) :
  JS.lt (JS.sqrt a) (Fin bound) ->
  exists v, JS.sqrt a = Fin v /\ 0 <= v.
Proof.
  destruct a as [r | | |]; cbn; try tauto.
  destruct (Rlt_dec r 0); cbn; [tauto |].
  intros _. eexists. split; [reflexivity | apply sqrt_pos].
Qed.

(** X11: hit-testing agrees with drawing: a click on the very pixel where
    a point of the scene is projected always finds a point, and the point
    found is projected on that pixel too. *)
Theorem click_on_dot_hits (scene : GeometryScene) (cv : Canvas)
    (st : State) (p : Point3D) (a b : R) :
  p ∈ points scene ->
  px (project (rotation st) (scale st) p (IZR (width cv)) (IZR (height cv)))
  = Fin a ->
  py (project (rotation st) (scale st) p (IZR (width cv)) (IZR (height cv)))
  = Fin b ->
  let e := {| posX := a + rectLeft cv; posY := b + rectTop cv |} in
  let cx := posX e - rectLeft cv in
  let cy := posY e - rectTop cv in
  exists q, q ∈ points scene
    /\ (hitTest st scene (IZR (width cv)) (IZR (height cv)) cx cy).1
       = Some (id q)
    /\ clickDist st (IZR (width cv)) (IZR (height cv)) cx cy q = Fin 0.
Proof.
  intros Hp Hx Hy e cx cy.
  assert (Hd : clickDist st (IZR (width cv)) (IZR (height cv)) cx cy p = Fin 0).
  { apply (clickDist_at_projection _ _ _ _ _ _ a b Hx Hy);
      unfold cx, cy, e; cbn [posX posY]; lra. }
  destruct (hitTest st scene (IZR (width cv)) (IZR (height cv)) cx cy).1
    as [i |] eqn:Hhit.
  - destruct (hitTest_some _ _ _ _ _ _ _ Hhit) as (q & Hq & <- & Hq20 & Hmin).
    exists q. split; [exact Hq |]. split; [reflexivity |].
    specialize (Hmin p Hp). rewrite Hd in Hmin.
    unfold clickDist in *. cbv zeta in *.
    destruct (sqrt_range _ _ Hq20) as (v & Hv & Hpos).
    rewrite Hv in *. cbn [JS.lt] in Hmin. f_equal. lra.
  - exfalso. rewrite hitTest_none in Hhit. apply (Hhit p Hp).
    rewrite Hd. cbn. lra.
Qed.

Lemma click_on_dot_hits_witness :
  exists q, q ∈ points lineScene
    /\ (hitTest initialState lineScene 800 600
          (800 / 2 + 0 - 0) (600 / 2 + 0 - 0)).1 = Some (id q)
    /\ clickDist initialState 800 600 (800 / 2 + 0 - 0) (600 / 2 + 0 - 0) q
       = Fin 0.
Proof.
  apply (click_on_dot_hits lineScene
           {| width := 800; height := 600; rectLeft := 0; rectTop := 0;
              hasContext := true |}
           initialState (pointAt "A" 0 0 0) (800 / 2) (600 / 2)).
  - cbn. apply elem_of_cons. left. reflexivity.
  - apply project_origin; reflexivity.
  - apply project_origin; reflexivity.
Defined.

(** ** Layers of the draw pass *)

Lemma last_with_id (l : list Point3D) (p : Point3D) :
  NoDup (map id l) -> p ∈ l ->
  last (filter (fun q => id q = id p) l) = Some p.
Proof.
  induction l as [| q l IH] using rev_ind; intros Hnd Hp; [inversion Hp |].
  rewrite map_app in Hnd. apply NoDup_app in Hnd as (Hl & Hdisj & _).
  rewrite filter_app, filter_cons, filter_nil.
  apply elem_of_app in Hp as [Hp | Hp].
  - case_decide as Hk.
    + exfalso. apply (Hdisj (id p)).
      * apply list_elem_of_In, in_map, list_elem_of_In, Hp.
      * rewrite <- Hk. cbn. apply elem_of_cons. left. reflexivity.
    + rewrite app_nil_r. apply IH; assumption.
  - apply list_elem_of_singleton in Hp as ->.
    rewrite decide_True by reflexivity. rewrite last_snoc. reflexivity.
Qed.

(** X12: the per-frame map holds, under each id, the projection of the
    last scene point carrying that id, and nothing under other ids; when
    the ids of the scene are pairwise distinct every point is found under
    its id with its own projection. *)
Theorem projectedPoints_lookup (st : State) (scene : GeometryScene)
    (w h : R) :
  (forall k,
     projectedPoints st scene w h !! k
     = proj st w h <$> last (filter (fun p => id p = k) (points scene)))
  /\ (NoDup (map id (points scene)) ->
      forall p, p ∈ points scene ->
        projectedPoints st scene w h !! id p = Some (proj st w h p)).
Proof.
  assert (Hlast : forall k,
            projectedPoints st scene w h !! k
            = proj st w h <$> last (filter (fun p => id p = k) (points scene))).
  { intros k. unfold projectedPoints.
    induction (points scene) as [| p l IH] using rev_ind.
    - cbn. apply lookup_empty.
    - rewrite insertAll_snoc, filter_app, lookup_insert.
      rewrite filter_cons, filter_nil. case_decide as Hk.
      + rewrite last_snoc. reflexivity.
      + rewrite app_nil_r. exact IH. }
  split; [exact Hlast |].
  intros Hnd p Hp. rewrite Hlast, (last_with_id _ _ Hnd Hp). reflexivity.
Qed.

Lemma projectedPoints_lookup_witness :
  projectedPoints initialState lineScene 800 600 !! "B"%string
  = Some (proj initialState 800 600 (pointAt "B" 1 0 0)).
Proof.
  refine (proj2 (projectedPoints_lookup initialState lineScene 800 600) _
            (pointAt "B" 1 0 0) _).
  - cbn. repeat constructor; cbn; intros Hin;
      repeat (apply elem_of_cons in Hin as [Hin | Hin]; [discriminate |]);
      inversion Hin.
  - cbn. apply elem_of_cons. right. apply elem_of_cons. left. reflexivity.
Defined.

Lemma findPoint_missing scene k :
  k ∉ map id (points scene) -> findPoint scene k = None.
Proof.
  intros Hk. unfold findPoint.
  destruct (find _ (points scene)) as [p |] eqn:Hf; [| reflexivity].
  apply find_some in Hf as [Hin Heq]. apply String.eqb_eq in Heq.
  exfalso. apply Hk. rewrite <- Heq.
  apply list_elem_of_In, in_map, Hin.
Qed.

Lemma drawMeasurement_stale (P : Platform) (st : State)
    (scene : GeometryScene) (w h : R) :
  (forall k, k ∈ take 2 (measurePoints st) -> k ∉ map id (points scene)) ->
  drawMeasurement P st scene w h = [].
Proof.
  intros Hstale. unfold drawMeasurement.
  destruct (measurePoints st) as [| a [| b rest]]; [reflexivity | |].
  - cbn [length Nat.ltb Nat.leb lookup list_lookup mbind option_bind].
    rewrite findPoint_missing; [reflexivity |].
    apply Hstale. cbn. apply elem_of_cons. left. reflexivity.
  - cbn [length Nat.ltb Nat.leb lookup list_lookup mbind option_bind].
    rewrite !findPoint_missing; [reflexivity | |]; apply Hstale; cbn.
    + apply elem_of_cons. right. apply elem_of_cons. left. reflexivity.
    + apply elem_of_cons. left. reflexivity.
Qed.

(** X13: measurement ids that the scene no longer holds are skipped
    silently: when neither of the first two ids of the pair names a point
    of the scene, the measurement layer issues no command at all. *)
Theorem stale_measurement_draws_nothing (P : Platform) (st : State)
    (scene : GeometryScene) (w h : R) :
  (forall k, k ∈ take 2 (measurePoints st) -> k ∉ map id (points scene)) ->
  drawMeasurement P st scene w h = [].
Proof. apply drawMeasurement_stale. Qed.

Lemma stale_measurement_draws_nothing_witness :
  drawMeasurement plainPlatform (flatState true ["Y"%string; "Z"%string])
    lineScene 800 600 = [].
Proof.
  apply stale_measurement_draws_nothing.
  intros k Hk. cbn in Hk |- *.
  apply elem_of_cons in Hk as [-> | Hk];
    [| apply elem_of_cons in Hk as [-> | Hk]; [| inversion Hk]];
    intros Hin;
    repeat (apply elem_of_cons in Hin as [Hin | Hin]; [discriminate |]);
    inversion Hin.
Defined.

Lemma getDistance_sym p q : getDistance p q = getDistance q p.
Proof. unfold getDistance. f_equal. ring. Qed.

(** X14: the distance badge is written exactly when the pair holds two
    ids that both name a point of the scene, and its text does not depend
    on the order in which the two points were picked. *)
Theorem badge_text_needs_both_points (P : Platform) (st st' : State)
    (scene : GeometryScene) (w h : R) (a b : string) :
  measurePoints st = [a; b] -> measurePoints st' = [b; a] ->
  (fillTexts (drawMeasurement P st scene w h) <> []
   <-> a ∈ map id (points scene) /\ b ∈ map id (points scene))
  /\ fillTexts (drawMeasurement P st scene w h)
     = fillTexts (drawMeasurement P st' scene w h).
Proof.
  intros Hpair Hpair'. rewrite !drawMeasurement_texts, Hpair, Hpair'.
  assert (Hfind : forall k,
            (exists p, findPoint scene k = Some p)
            <-> k ∈ map id (points scene)).
  { intros k. split.
    - intros [p Hf]. unfold findPoint in Hf.
      apply find_some in Hf as [Hin Heq]. apply String.eqb_eq in Heq.
      rewrite <- Heq. apply list_elem_of_In, in_map, Hin.
    - intros Hk. destruct (findPoint scene k) as [p |] eqn:Hf; [eauto |].
      exfalso. unfold findPoint in Hf.
      apply list_elem_of_In, in_map_iff in Hk as (p & Hid & Hin).
      apply (find_none _ _ Hf) in Hin. apply String.eqb_neq in Hin.
      contradiction. }
  split.
  - rewrite <- !Hfind.
    destruct (findPoint scene a) as [pa |];
      destruct (findPoint scene b) as [pb |]; split.
    + intros _. split; eauto.
    + intros _. discriminate.
    + intros Hne. exfalso. apply Hne. reflexivity.
    + intros [_ [? [=]]].
    + intros Hne. exfalso. apply Hne. reflexivity.
    + intros [[? [=]] _].
    + intros Hne. exfalso. apply Hne. reflexivity.
    + intros [[? [=]] _].
  - destruct (findPoint scene a) as [pa |];
      destruct (findPoint scene b) as [pb |]; try reflexivity.
    rewrite getDistance_sym. reflexivity.
Qed.

Lemma badge_text_needs_both_points_witness :
  (fillTexts (drawMeasurement plainPlatform
                (flatState true ["A"%string; "B"%string]) brokenScene 800 600)
   <> []
   <-> "A"%string ∈ map id (points brokenScene)
       /\ "B"%string ∈ map id (points brokenScene))
  /\ fillTexts (drawMeasurement plainPlatform
                  (flatState true ["A"%string; "B"%string]) brokenScene 800 600)
     = fillTexts (drawMeasurement plainPlatform
                    (flatState true ["B"%string; "A"%string]) brokenScene
                    800 600).
Proof.
  apply (badge_text_needs_both_points plainPlatform
           (flatState true ["A"%string; "B"%string])
           (flatState true ["B"%string; "A"%string]) brokenScene 800 600
           "A"%string "B"%string); reflexivity.
Defined.

(** X15: the highlight and the tooltip are drawn for a point exactly when
    the component is in detail mode and the selected id names a point of
    the scene; they go to the last scene point with that id, at the
    projection stored under it.  A selection left over from a replaced
    scene, or any selection in measurement mode, draws nothing extra. *)
Theorem highlight_needs_present_selection (st : State)
    (scene : GeometryScene) (w h : R) :
  (forall pr p,
     (drawPoints st scene w h).2 = Some (pr, p) ->
     isMeasurementMode st = false /\ selectedPointId st = Some (id p)
     /\ p ∈ points scene
     /\ projectedPoints st scene w h !! id p = Some pr)
  /\ ((drawPoints st scene w h).2 = None
      <-> isMeasurementMode st = true
          \/ forall k, selectedPointId st = Some k ->
                k ∉ map id (points scene)).
Proof.
  pose proof (drawPoints_selected st scene w h) as Hinv.
  unfold selectedInv in Hinv. split.
  - intros pr p Hsel. rewrite Hsel in Hinv.
    destruct Hinv as (Hin & Hs & Hl). apply isSelected_spec in Hs as [? ?].
    auto.
  - destruct (drawPoints st scene w h).2 as [[pr p] |]; split.
    + discriminate.
    + destruct Hinv as (Hin & Hs & _). apply isSelected_spec in Hs as [Hm Hk].
      intros [Hmode | Hstale]; [congruence |].
      exfalso. apply (Hstale _ Hk).
      apply list_elem_of_In, in_map, list_elem_of_In, Hin.
    + intros _. destruct (isMeasurementMode st) eqn:Hm; [auto |].
      right. intros k Hk Hin.
      apply list_elem_of_In, in_map_iff in Hin as (q & Hid & Hq).
      apply list_elem_of_In in Hq.
      assert (Hs : isSelected st q = true)
        by (apply isSelected_spec; split; congruence).
      rewrite (Hinv q Hq) in Hs. discriminate.
    + reflexivity.
Qed.

Lemma highlight_needs_present_selection_witness :
  (drawPoints (setSelectedPointId (Some "Z"%string) initialState)
     lineScene 800 600).2 = None.
Proof.
  apply (proj2 (highlight_needs_present_selection
                  (setSelectedPointId (Some "Z"%string) initialState)
                  lineScene 800 600)).
  right. intros k [= <-]. cbn. intros Hin.
  repeat (apply elem_of_cons in Hin as [Hin | Hin]; [discriminate |]).
  inversion Hin.
Defined.

Lemma drawFrame_empty_points P st segs w h :
  drawFrame P st {| points := []; segments := segs |} w h
  = ClearRect 0 0 w h :: drawGrid st w h ++ drawAxes st w h.
Proof.
  unfold drawFrame. cbn [app].
  assert (Hseg : drawSegments st {| points := []; segments := segs |} w h = []).
  { unfold drawSegments. cbn [segments].
    generalize segs at 2 as l. intros l.
    induction l as [| seg l IH]; [reflexivity |].
    cbn [map concat]. rewrite IH, app_nil_r.
    unfold drawSegment, projectedPoints. cbn [points foldl].
    rewrite lookup_empty. reflexivity. }
  assert (Hm : drawMeasurement P st {| points := []; segments := segs |} w h = []).
  { apply drawMeasurement_stale. intros k _ Hin. inversion Hin. }
  rewrite Hseg, Hm. cbn [drawPoints points foldl fst snd app].
  rewrite !app_nil_r. reflexivity.
Qed.

(** X16: a scene without points is inert: whatever segments it lists and
    whatever selection is left over, the frame is the cleared surface, the
    grid and the axes, and every click is a click on empty space. *)
Theorem empty_scene_is_inert (P : Platform) (st : State)
    (segs : list LineSegment) (w h : R) (dom : Dom) (e : Pos) :
  let scene := {| points := []; segments := segs |} in
  drawFrame P st scene w h
  = ClearRect 0 0 w h :: drawGrid st w h ++ drawAxes st w h
  /\ handleCanvasClick scene dom e st
     = match canvas dom with
       | None => st
       | Some _ =>
           if isMeasurementMode st then st else setSelectedPointId None st
       end.
Proof.
  split; [apply drawFrame_empty_points |].
  unfold handleCanvasClick. destruct (canvas dom) as [cv |]; [| reflexivity].
  cbn. destruct (isMeasurementMode st); reflexivity.
Qed.

(** ** Perspective *)

(** X17: under one camera with a zoom scale in the clamp range, of two
    points with norms up to 39.999 whose rotated depths differ by at least
    0.001, the one with the larger rotated depth gets the larger
    perspective factor, and both factors are positive. *)
Theorem nearer_points_look_bigger (rot : Rotation) (s : R)
    (p q : Point3D) (w h : R) :
  20 <= s <= 500 ->
  norm p <= 39.999 -> norm q <= 39.999 ->
  zIndex (project rot s p w h) + 0.001 <= zIndex (project rot s q w h) ->
  exists fp fq,
    pscale (project rot s p w h) = Fin fp
    /\ pscale (project rot s q w h) = Fin fq
    /\ 0 < fp < fq.
Proof.
  intros Hs Hnp Hnq.
  assert (Hzp : Rabs (zIndex (project rot s p w h)) < 39.9995)
    by (rewrite zIndex_rotated; apply depth_below_norm; lra).
  assert (Hzq : Rabs (zIndex (project rot s q w h)) < 39.9995)
    by (rewrite zIndex_rotated; apply depth_below_norm; lra).
  revert Hzp Hzq. rewrite !zIndex_rotated. intros Hzp Hzq Hlt.
  apply Rabs_def2 in Hzp, Hzq.
  pose proof (project_finite rot s p w h) as Hp.
  pose proof (project_finite rot s q w h) as Hq'.
  destruct (rotated rot p) as [[xp yp] zp].
  destruct (rotated rot q) as [[xq yq] zq]. cbn [snd] in *.
  unfold d in *.
  destruct Hp as (_ & _ & Hfp); [lra |].
  destruct Hq' as (_ & _ & Hfq); [lra |].
  exists (s / (4 - zp * 0.1)), (s / (4 - zq * 0.1)).
  split; [exact Hfp |]. split; [exact Hfq |].
  assert (H1 : 0 < 4 - zq * 0.1) by lra.
  assert (H2 : 4 - zq * 0.1 < 4 - zp * 0.1) by lra.
  assert (H3 : / (4 - zp * 0.1) < / (4 - zq * 0.1))
    by (apply Rinv_lt_contravar; [apply Rmult_lt_0_compat |]; lra).
  assert (H4 : 0 < / (4 - zp * 0.1)) by (apply Rinv_0_lt_compat; lra).
  unfold Rdiv. split.
  - apply Rmult_lt_0_compat; [lra | assumption].
  - apply Rmult_lt_compat_l; [lra | assumption].
Qed.

Lemma nearer_points_look_bigger_witness :
  exists fp fq,
    pscale (project {| rx := 0; ry := 0 |} 100 (pointAt "A" 0 0 0) 800 600)
    = Fin fp
    /\ pscale (project {| rx := 0; ry := 0 |} 100 (pointAt "N" 0 0 1) 800 600)
       = Fin fq
    /\ 0 < fp < fq.
Proof.
  apply nearer_points_look_bigger.
  - lra.
  - apply norm_at_most; cbn [x y z pointAt]; lra.
  - apply norm_at_most; cbn [x y z pointAt]; lra.
  - unfold project. cbn [zIndex x y z rx ry pointAt]. rewrite cos_0, sin_0. lra.
Defined.

(** ** Finite coordinates *)

Lemma norm_below (p : Point3D) :
  x p ^ 2 + y p ^ 2 + z p ^ 2 < 1600 -> norm p < 40.
Proof.
  intros Hn. unfold norm. rewrite <- (sqrt_square 40) by lra.
  apply sqrt_lt_1_alt. split; [| lra].
  pose proof (pow2_ge_0 (x p)). pose proof (pow2_ge_0 (y p)).
  pose proof (pow2_ge_0 (z p)). lra.
Qed.

Lemma proj_in_range st w h p : norm p < 40 -> finitePos (proj st w h p).
Proof.
  intros Hn. unfold proj, finitePos.
  pose proof (depth_below_norm (rotation st) p 40 Hn) as Hz.
  pose proof (project_finite (rotation st) (scale st) p w h) as Hf.
  destruct (rotated (rotation st) p) as [[x1 yNew] zNew]. cbn [snd] in *.
  apply Rabs_def2 in Hz. unfold d in *.
  destruct Hf as (Hx & Hy & _); [lra |]. rewrite Hx, Hy. cbn. auto.
Qed.

Ltac finite_pos H :=
  let a := fresh "a" in
  let b := fresh "b" in
  let Ha := fresh "Ha" in
  let Hb := fresh "Hb" in
  destruct H as [Ha Hb];
  match type of Ha with
  | JS.isFinite (px ?pr) =>
      destruct (px pr) as [a | | |]; try (exfalso; exact Ha);
      destruct (py pr) as [b | | |]; try (exfalso; exact Hb)
  end.

Lemma drawGrid_finite st w h : Forall cmdFinite (drawGrid st w h).
Proof.
  unfold drawGrid. apply Forall_app. split; [repeat constructor |].
  apply Forall_app. split; [| repeat constructor].
  apply Forall_concat_map. intros k Hk.
  apply elem_of_seqZ in Hk. unfold gridSize, gridStep in *.
  set (i := (- (10) + k * 1)%Z).
  assert (Hi : (-10 <= i <= 10)%Z).
  { unfold i.
    assert (Hq : (2 * 10 / 1 + 1 = 21)%Z) by reflexivity.
    rewrite Hq in Hk. lia. }
  assert (Hr : -10 <= IZR i <= 10) by (split; apply IZR_le; lia).
  assert (Hsq : IZR i ^ 2 <= 100) by nra.
  unfold drawGridLines. cbv zeta.
  repeat constructor;
    first [ apply (fun H => proj1 (proj_in_range st w h _ H))
          | apply (fun H => proj2 (proj_in_range st w h _ H)) ];
    apply norm_below; cbn [x y z]; unfold gridSize; rewrite ?opp_IZR; nra.
Qed.

Lemma drawAxes_finite st w h : Forall cmdFinite (drawAxes st w h).
Proof.
  unfold drawAxes, drawAxis, axisLength. cbv zeta.
  repeat match goal with
         | |- context [proj st w h ?p] =>
             let H := fresh "H" in
             assert (H : finitePos (proj st w h p))
               by (apply proj_in_range, norm_below; cbn [x y z]; lra);
             generalize dependent (proj st w h p); intros ? H;
             finite_pos H
         end.
  cbn [JS.add JS.sub JS.neg app]. repeat constructor.
Qed.

(** X19: in every state whose zoom scale lies in the clamp range, the
    grid and the axes are drawn with finite coordinates, whatever the
    rotation and the viewport. *)
Theorem frame_coordinates_finite (st : State) (w h : R) :
  20 <= scale st <= 500 ->
  Forall cmdFinite (drawGrid st w h ++ drawAxes st w h).
Proof.
  intros _. apply Forall_app.
  split; [apply drawGrid_finite | apply drawAxes_finite].
Qed.

Lemma frame_coordinates_finite_witness :
  Forall cmdFinite (drawGrid initialState 800 600 ++ drawAxes initialState 800 600).
Proof.
  apply (frame_coordinates_finite initialState 800 600). cbn. lra.
Defined.

(** ** Selection and the scene *)

Lemma handleCanvasClick_ids scene dom e st :
  (forall k, selectedPointId (handleCanvasClick scene dom e st) = Some k ->
     selectedPointId st = Some k \/ k ∈ map id (points scene))
  /\ (forall k, k ∈ measurePoints (handleCanvasClick scene dom e st) ->
        k ∈ measurePoints st \/ k ∈ map id (points scene))
  /\ (isMeasurementMode st = true ->
      selectedPointId (handleCanvasClick scene dom e st) = selectedPointId st)
  /\ (isMeasurementMode st = false ->
      measurePoints (handleCanvasClick scene dom e st) = measurePoints st).
Proof.
  unfold handleCanvasClick.
  destruct (canvas dom) as [cv |]; [| repeat split; auto].
  cbv zeta.
  destruct (hitTest _ _ _ _ _ _).1 as [cid |] eqn:Hhit.
  - destruct (hitTest_some _ _ _ _ _ _ _ Hhit) as (p & Hp & Hid & _).
    assert (Hcid : cid ∈ map id (points scene)).
    { rewrite <- Hid. apply list_elem_of_In, in_map, list_elem_of_In, Hp. }
    destruct (JS.truthy (Some cid));
      destruct (isMeasurementMode st); cbn; repeat split; auto;
      try discriminate.
    + intros k Hk. apply addMeasurePoint_elem in Hk as [-> | Hk]; auto.
    + intros k [= <-]. auto.
  - destruct (isMeasurementMode st); cbn; repeat split; auto;
      intros; discriminate.
Qed.

(** X20: a click acts on the selection of its own mode only: in
    measurement mode it never touches the detail selection, and in detail
    mode it never touches the measurement pair. *)
Theorem click_respects_mode (scene : GeometryScene) (dom : Dom) (e : Pos)
    (st : State) :
  (isMeasurementMode st = true ->
   selectedPointId (handleCanvasClick scene dom e st) = selectedPointId st)
  /\ (isMeasurementMode st = false ->
      measurePoints (handleCanvasClick scene dom e st) = measurePoints st).
Proof. apply handleCanvasClick_ids. Qed.

Lemma click_respects_mode_witness :
  measurePoints
    (handleCanvasClick lineScene page {| posX := 425; posY := 300 |}
       (flatState false ["A"%string]))
  = ["A"%string].
Proof.
  apply (proj2 (click_respects_mode lineScene page
                  {| posX := 425; posY := 300 |} (flatState false ["A"%string]))).
  reflexivity.
Defined.

Lemma step_ids_from_scene scene dom ev st k :
  k ∈ measurePoints (step scene dom ev st)
  \/ selectedPointId (step scene dom ev st) = Some k ->
  (k ∈ measurePoints st \/ selectedPointId st = Some k)
  \/ k ∈ map id (points scene).
Proof.
  assert (Hclick : forall e st0,
            measurePoints st0 = measurePoints st ->
            selectedPointId st0 = selectedPointId st ->
            k ∈ measurePoints (handleCanvasClick scene dom e st0)
            \/ selectedPointId (handleCanvasClick scene dom e st0) = Some k ->
            (k ∈ measurePoints st \/ selectedPointId st = Some k)
            \/ k ∈ map id (points scene)).
  { intros e st0 Hp Hs.
    destruct (handleCanvasClick_ids scene dom e st0) as (Hsel & Hmp & _).
    intros [Hk | Hk].
    - apply Hmp in Hk as [Hk | Hk]; [rewrite Hp in Hk |]; auto.
    - apply Hsel in Hk as [Hk | Hk]; [rewrite Hs in Hk |]; auto. }
  destruct ev; cbn [step]; auto.
  - unfold handleMouseMove. destruct (negb (isDragging st)); cbn; auto.
  - unfold handleMouseUp. cbv zeta.
    destruct (Rlt_dec _ 5); [apply Hclick; reflexivity | cbn; auto].
  - unfold handleMouseUp. cbv zeta.
    destruct (Rlt_dec _ 5); [apply Hclick; reflexivity | cbn; auto].
  - unfold toggleMeasurementMode. cbv zeta.
    destruct (negb (isMeasurementMode st)); cbn;
      intros [Hk | Hk]; auto; try discriminate; inversion Hk.
  - cbn. intros [Hk | Hk]; [inversion Hk | discriminate].
Qed.

(** X21: ids are never invented: an id that is selected or sits in the
    measurement pair after a run of events is the id of a point of the
    scene some event of the run was handled with. *)
Theorem selected_ids_come_from_scenes
    (trace : list (GeometryScene * Dom * Event)) (k : string) :
  k ∈ measurePoints (run trace initialState)
  \/ selectedPointId (run trace initialState) = Some k ->
  exists scene dom ev,
    (scene, dom, ev) ∈ trace /\ k ∈ map id (points scene).
Proof.
  induction trace as [| [[scene dom] ev] trace IH] using rev_ind.
  - cbn. intros [Hk | Hk]; [inversion Hk | discriminate].
  - rewrite run_snoc. intros Hk.
    apply step_ids_from_scene in Hk as [Hk | Hk].
    + destruct (IH Hk) as (scene' & dom' & ev' & Hin & Hid).
      exists scene', dom', ev'. split; [| exact Hid].
      apply elem_of_app. auto.
    + exists scene, dom, ev. split; [| exact Hk].
      apply elem_of_app. right. apply list_elem_of_singleton. reflexivity.
Qed.

Lemma selected_ids_come_from_scenes_witness :
  let scene := {| points := [ pointAt "O" 0 0 0 ]; segments := [] |} in
  let click := {| posX := 400; posY := 300 |} in
  exists scene' dom ev,
    (scene', dom, ev)
    ∈ [ (scene, page, MouseDown click); (scene, page, MouseUp click) ]
    /\ "O"%string ∈ map id (points scene').
Proof.
  intros scene click.
  apply (selected_ids_come_from_scenes
           [ (scene, page, MouseDown click); (scene, page, MouseUp click) ]
           "O"%string).
  right. exact (proj1 select_then_measure).
Defined.

(** ** Mode buttons *)

(** X22: pressing the Measure button twice comes back to the same mode
    with the selection and the pair cleared; the Select button is
    idempotent; and on a state the component can reach in measurement
    mode both buttons do the same. *)
Theorem mode_buttons_compose (st : State) :
  toggleMeasurementMode (toggleMeasurementMode st)
  = setSelectedPointId None (setMeasurePoints (fun _ => []) st)
  /\ selectModeClick (selectModeClick st) = selectModeClick st
  /\ (forall trace,
        st = run trace initialState -> isMeasurementMode st = true ->
        toggleMeasurementMode st = selectModeClick st).
Proof.
  split; [| split].
  - unfold toggleMeasurementMode. cbv zeta.
    destruct st as [r s dr lm sel mode mp md]. destruct mode; reflexivity.
  - reflexivity.
  - intros trace -> Hmode.
    destruct (reachable_inv _ (run_reachable trace)) as (_ & Hsel & _).
    specialize (Hsel Hmode).
    destruct (run trace initialState) as [r s dr lm sel mode mp md].
    cbn in *. subst. reflexivity.
Qed.

Lemma mode_buttons_compose_witness :
  toggleMeasurementMode (run [ (lineScene, page, MeasureButtonClick) ] initialState)
  = selectModeClick (run [ (lineScene, page, MeasureButtonClick) ] initialState).
Proof.
  apply (proj2 (proj2 (mode_buttons_compose
                         (run [ (lineScene, page, MeasureButtonClick) ]
                            initialState)))
           [ (lineScene, page, MeasureButtonClick) ]); reflexivity.
Defined.

(** ** Overlay *)

(** X25: in every state the component can reach, the tool instruction is
    absent in select mode and, in measurement mode, reads the bare prompt
    or the prompt followed by a count of 1/2 or 2/2: it never counts past
    two. *)
Theorem tool_instruction_counts_to_two
    (trace : list (GeometryScene * Dom * Event)) :
  let st := run trace initialState in
  (isMeasurementMode st = false -> toolInstruction st = None)
  /\ (isMeasurementMode st = true ->
      toolInstruction st = Some "Select 2 points to measure distance"%string
      \/ toolInstruction st
         = Some "Select 2 points to measure distance (1/2 selected)"%string
      \/ toolInstruction st
         = Some "Select 2 points to measure distance (2/2 selected)"%string).
Proof.
  intros st. destruct (reachable_inv st (run_reachable trace)) as (Hl & _ & _).
  unfold toolInstruction. split; intros ->; [reflexivity |].
  destruct (measurePoints st) as [| a [| b [| c rest]]]; cbn in Hl.
  - left. reflexivity.
  - right. left. vm_compute. reflexivity.
  - right. right. vm_compute. reflexivity.
  - lia.
Qed.

Lemma tool_instruction_counts_to_two_witness :
  toolInstruction (run [ (lineScene, page, MeasureButtonClick) ] initialState)
  = Some "Select 2 points to measure distance"%string
  \/ toolInstruction (run [ (lineScene, page, MeasureButtonClick) ] initialState)
     = Some "Select 2 points to measure distance (1/2 selected)"%string
  \/ toolInstruction (run [ (lineScene, page, MeasureButtonClick) ] initialState)
     = Some "Select 2 points to measure distance (2/2 selected)"%string.
Proof.
  apply (proj2 (tool_instruction_counts_to_two
                  [ (lineScene, page, MeasureButtonClick) ])).
  reflexivity.
Defined.
